(** * ts-diff: the diagnostics comparison engine of [src/run.ts]

    A shallow embedding of [parseDiagnostics] and [compareDiagnostics]
    together with the parts of the JavaScript runtime they call:
    strings ([split], [trim], [endsWith], [replace], [toLowerCase],
    [includes]), IEEE 754 binary64 numbers ([parseFloat], [parseInt],
    Number-to-string conversion, [toFixed]) and plain objects used as
    insertion-ordered maps (property assignment, property lookup through
    the prototype chain, [for ... in] enumeration).

    Strings are byte strings holding the UTF-8 encoding of the text;
    numbers are [spec_float] at precision 53 and maximal exponent 1024. *)

From Stdlib Require Import ZArith NArith List String Ascii Bool Lia.
From Stdlib Require Import Permutation DecimalString SpecFloat.
Import ListNotations.

Set Implicit Arguments.

(* ================================================================== *)
(** ** Completion records: a computation returns or throws *)

Inductive result (A : Type) : Type :=
| Normal (a : A)
| Throw (e : string).

Arguments Normal {A} a.
Arguments Throw {A} e.

Definition bind {A B : Type} (r : result A) (k : A -> result B) : result B :=
  match r with
  | Normal a => k a
  | Throw e => Throw e
  end.

Notation "x <- c1 ;; c2" := (bind c1 (fun x => c2))
  (at level 61, c1 at next level, right associativity).

(* ================================================================== *)
(** ** JavaScript strings *)

Module JsString.
Open Scope string_scope.

(** [s.split(sep)] for a one-character separator. *)
Fixpoint split (sep : ascii) (s : string) : list string :=
  match s with
  | "" => [""]
  | String c s' =>
      if Ascii.eqb c sep then "" :: split sep s'
      else match split sep s' with
           | [] => [String c ""]
           | p :: ps => String c p :: ps
           end
  end.

Fixpoint rev_onto (s acc : string) : string :=
  match s with
  | "" => acc
  | String c s' => rev_onto s' (String c acc)
  end.

Definition rev (s : string) : string := rev_onto s "".

Fixpoint drop (n : nat) (s : string) : string :=
  match n, s with
  | O, _ => s
  | S n', String _ s' => drop n' s'
  | S _, "" => ""
  end.

Fixpoint take (n : nat) (s : string) : string :=
  match n, s with
  | S n', String c s' => String c (take n' s')
  | _, _ => ""
  end.

Fixpoint startsWith (s p : string) : bool :=
  match p, s with
  | "", _ => true
  | String a p', String b s' => Ascii.eqb a b && startsWith s' p'
  | String _ _, "" => false
  end.

(** [s.endsWith(t)] *)
Definition endsWith (s t : string) : bool := startsWith (rev s) (rev t).

(** [s.replace(pat, rep)] with a string pattern: only the first
    occurrence of [pat] is replaced. *)
Fixpoint replace (s pat rep : string) : string :=
  if startsWith s pat then rep ++ drop (length pat) s
  else match s with
       | "" => ""
       | String c s' => String c (replace s' pat rep)
       end.

(** [s.includes(t)] *)
Fixpoint includes (s t : string) : bool :=
  startsWith s t
  || match s with
     | "" => false
     | String _ s' => includes s' t
     end.

Definition lower_ascii (c : ascii) : ascii :=
  let n := N_of_ascii c in
  if ((65 <=? n) && (n <=? 90))%N then ascii_of_N (n + 32) else c.

(** [s.toLowerCase()] on the letters A-Z; the bytes of a code point
    outside ASCII are kept.  The only such code point whose lower case
    holds one of the letters t, i, m, e is U+0130, which lowers to an i
    followed by U+0307, so it takes part in no occurrence of "time" and
    [includes (toLowerCase s) "time"] is what JavaScript computes. *)
Fixpoint toLowerCase (s : string) : string :=
  match s with
  | "" => ""
  | String c s' => String (lower_ascii c) (toLowerCase s')
  end.

(** White space and line terminators of ECMAScript, as UTF-8 byte
    sequences: U+0009..U+000D, U+0020 (one byte), U+00A0 (two bytes),
    U+1680, U+2000..U+200A, U+2028, U+2029, U+202F, U+205F, U+3000 and
    U+FEFF (three bytes). *)
Definition ws1 (a : ascii) : bool :=
  let n := N_of_ascii a in
  ((9 <=? n) && (n <=? 13) || (n =? 32))%N.

Definition ws2 (a b : ascii) : bool :=
  ((N_of_ascii a =? 194) && (N_of_ascii b =? 160))%N.

Definition ws3 (a b c : ascii) : bool :=
  let x := N_of_ascii a in
  let y := N_of_ascii b in
  let z := N_of_ascii c in
  ((x =? 225) && (y =? 154) && (z =? 128)
   || (x =? 226) && (y =? 128)
      && ((128 <=? z) && (z <=? 138) || (z =? 168) || (z =? 169) || (z =? 175))
   || (x =? 226) && (y =? 129) && (z =? 159)
   || (x =? 227) && (y =? 128) && (z =? 128)
   || (x =? 239) && (y =? 187) && (z =? 191))%N.

Fixpoint trimStart (s : string) : string :=
  match s with
  | "" => ""
  | String a s1 =>
      if ws1 a then trimStart s1
      else match s1 with
           | "" => s
           | String b s2 =>
               if ws2 a b then trimStart s2
               else match s2 with
                    | "" => s
                    | String c s3 => if ws3 a b c then trimStart s3 else s
                    end
           end
  end.

(** The same scan from the end, on the reversed string (so the bytes of
    a sequence come last byte first). *)
Fixpoint trimStartRev (s : string) : string :=
  match s with
  | "" => ""
  | String a s1 =>
      if ws1 a then trimStartRev s1
      else match s1 with
           | "" => s
           | String b s2 =>
               if ws2 b a then trimStartRev s2
               else match s2 with
                    | "" => s
                    | String c s3 => if ws3 c b a then trimStartRev s3 else s
                    end
           end
  end.

Definition trimEnd (s : string) : string := rev (trimStartRev (rev s)).

(** [s.trim()] *)
Definition trim (s : string) : string := trimEnd (trimStart s).

Fixpoint repeat0 (n : nat) : string :=
  match n with
  | O => ""
  | S n' => String "0" (repeat0 n')
  end.

End JsString.

(* ================================================================== *)
(** ** JavaScript numbers: IEEE 754 binary64 *)

Module JsNumber.
Import JsString.
Open Scope Z_scope.

Definition prec : Z := 53.
Definition emax : Z := 1024.

Definition number : Type := spec_float.

Definition NaN : number := S754_nan.
Definition zero : number := S754_zero false.

(** The Number value of an integer literal such as [100] or [1000]. *)
Definition of_Z (z : Z) : number := binary_normalize prec emax z 0 false.

Definition sub : number -> number -> number := SFsub prec emax.
Definition mul : number -> number -> number := SFmul prec emax.
Definition div : number -> number -> number := SFdiv prec emax.
Definition abs : number -> number := SFabs.
Definition neg : number -> number := SFopp.

(** [x === y], [x < y] and [x <= y] on numbers *)
Definition eqb : number -> number -> bool := SFeqb.
Definition ltb : number -> number -> bool := SFltb.
Definition leb : number -> number -> bool := SFleb.

Definition isNaN (x : number) : bool :=
  match x with
  | S754_nan => true
  | _ => false
  end.

Definition isFinite (x : number) : bool :=
  match x with
  | S754_nan | S754_infinity _ => false
  | _ => true
  end.

(** Structural equality: the same floating-point datum. *)
Definition same (x y : number) : bool :=
  match x, y with
  | S754_nan, S754_nan => true
  | S754_zero a, S754_zero b => Bool.eqb a b
  | S754_infinity a, S754_infinity b => Bool.eqb a b
  | S754_finite a m e, S754_finite b m' e' =>
      Bool.eqb a b && Pos.eqb m m' && Z.eqb e e'
  | _, _ => false
  end.

(** The Number value of the decimal [d * 10^p] (round to nearest, ties
    to even), negated when [sign] is set.  A zero keeps the sign. *)
Definition of_decimal (sign : bool) (d p : Z) : number :=
  match d with
  | Zpos m =>
      if 0 <=? p
      then binary_round prec emax sign (m * Z.to_pos (10 ^ p)) 0
      else SFdiv prec emax (S754_finite sign m 0)
                           (S754_finite false (Z.to_pos (10 ^ (- p))) 0)
  | _ => S754_zero sign
  end.

(** *** Reading digits *)

Definition digit_val (c : ascii) : option Z :=
  let n := Z.of_N (N_of_ascii c) in
  if (48 <=? n) && (n <=? 57) then Some (n - 48) else None.

Definition hex_val (c : ascii) : option Z :=
  let n := Z.of_N (N_of_ascii c) in
  if (48 <=? n) && (n <=? 57) then Some (n - 48)
  else if (97 <=? n) && (n <=? 102) then Some (n - 87)
  else if (65 <=? n) && (n <=? 70) then Some (n - 55)
  else None.

(** Reads the longest run of digits at the start of [s]: the value of
    [acc] followed by these digits, how many were read, and the rest. *)
Fixpoint scan (val : ascii -> option Z) (radix : Z) (s : string)
         (acc : Z) (cnt : nat) : Z * nat * string :=
  match s with
  | String c s' =>
      match val c with
      | Some v => scan val radix s' (acc * radix + v) (S cnt)
      | None => (acc, cnt, s)
      end
  | EmptyString => (acc, cnt, s)
  end.

Definition split_sign (s : string) : bool * string :=
  match s with
  | String "-" r => (true, r)
  | String "+" r => (false, r)
  | _ => (false, s)
  end.

(** The value of an exponent part [e[+-]digits] at the start of [s],
    and 0 when there is none. *)
Definition exponent_part (s : string) : Z :=
  match s with
  | String c r =>
      if (Ascii.eqb c "e" || Ascii.eqb c "E")%bool then
        let '(sg, r') := split_sign r in
        let '(v, cnt, _) := scan digit_val 10 r' 0 O in
        match cnt with
        | O => 0
        | S _ => if sg then - v else v
        end
      else 0
  | EmptyString => 0
  end.

(** [parseFloat(input)]: the longest prefix of the trimmed input that is
    a StrDecimalLiteral. *)
Definition parseFloat (input : string) : number :=
  let '(sg, u) := split_sign (trimStart input) in
  if startsWith u "Infinity" then S754_infinity sg
  else
    let '(iv, ic, r1) := scan digit_val 10 u 0 O in
    let '(mv, fc, r2) :=
      match r1 with
      | String "." r => scan digit_val 10 r iv O
      | _ => (iv, O, r1)
      end in
    match (ic + fc)%nat with
    | O => NaN
    | S _ => of_decimal sg mv (exponent_part r2 - Z.of_nat fc)
    end.

(** [parseInt(input)] with no radix argument: radix 10, or 16 after a
    [0x] or [0X] prefix. *)
Definition parseInt (input : string) : number :=
  let '(sg, u) := split_sign (trimStart input) in
  let '(radix, val, v) :=
    match u with
    | String "0" (String x r) =>
        if (Ascii.eqb x "x" || Ascii.eqb x "X")%bool
        then (16, hex_val, r) else (10, digit_val, u)
    | _ => (10, digit_val, u)
    end in
  let '(n, cnt, _) := scan val radix v 0 O in
  match cnt with
  | O => NaN
  | S _ => of_decimal sg n 0
  end.

(** *** Printing *)

Definition dec (z : Z) : string := NilZero.string_of_uint (N.to_uint (Z.to_N z)).

(** The exact value of the finite number with mantissa [m] and exponent
    [e], as a fraction. *)
Definition ratio (m : positive) (e : Z) : Z * Z :=
  if 0 <=? e then (Zpos m * 2 ^ e, 1) else (Zpos m, 2 ^ (- e)).

Fixpoint neg_exp10 (fuel : nat) (num den j : Z) : Z :=
  match fuel with
  | O => j
  | S f => if den <=? num * 10 ^ j then j else neg_exp10 f num den (j + 1)
  end.

(** The [n] with [10^(n-1) <= num/den < 10^n]. *)
Definition exp10 (num den : Z) : Z :=
  if den <=? num then Z.of_nat (length (dec (num / den)))
  else 1 - neg_exp10 (Z.to_nat (Z.log2 den) + 1) num den 1.

(** The [k]-digit decimals next to [num/den]: the closer one first (the
    even one on a tie), with their common exponent. *)
Definition neighbours (num den n k : Z) : Z * Z * Z :=
  let p := n - k in
  let '(a, b) := if 0 <=? p then (num, den * 10 ^ p) else (num * 10 ^ (- p), den) in
  let lo := a / b in
  let hi := lo + 1 in
  match (2 * (a mod b)) ?= b with
  | Lt => (lo, hi, p)
  | Gt => (hi, lo, p)
  | Eq => if Z.even lo then (lo, hi, p) else (hi, lo, p)
  end.

(** The decimal with the fewest digits whose Number value is [x]. *)
Fixpoint shortest (fuel : nat) (x : number) (num den n k : Z) : Z * Z :=
  let '(c1, c2, p) := neighbours num den n k in
  if same (of_decimal false c1 p) x then (c1, p)
  else if same (of_decimal false c2 p) x then (c2, p)
  else match fuel with
       | O => (c1, p)
       | S f => shortest f x num den n (k + 1)
       end.

Fixpoint strip_zeros (fuel : nat) (d p : Z) : Z * Z :=
  match fuel with
  | O => (d, p)
  | S f => if (d mod 10 =? 0) && negb (d =? 0)
           then strip_zeros f (d / 10) (p + 1) else (d, p)
  end.

(** The layout of Number::toString for the digits [s] ([k] of them) of a
    value in [10^(n-1), 10^n). *)
Definition layout (s : string) (k n : Z) : string :=
  if (k <=? n) && (n <=? 21) then (s ++ repeat0 (Z.to_nat (n - k)))%string
  else if (0 <? n) && (n <=? 21)
  then (take (Z.to_nat n) s ++ "." ++ drop (Z.to_nat n) s)%string
  else if (-6 <? n) && (n <=? 0)
  then ("0." ++ repeat0 (Z.to_nat (- n)) ++ s)%string
  else
    let e := n - 1 in
    let sg : string := if e <? 0 then "-" else "+" in
    let es := (sg ++ dec (Z.abs e))%string in
    if k =? 1 then (s ++ "e" ++ es)%string
    else (take 1 s ++ "." ++ drop 1 s ++ "e" ++ es)%string.

(** Number::toString(x), radix 10 *)
Definition toString (x : number) : string :=
  match x with
  | S754_nan => "NaN"
  | S754_zero _ => "0"
  | S754_infinity s => if s then "-Infinity" else "Infinity"
  | S754_finite s m e =>
      let '(num, den) := ratio m e in
      let '(d0, p0) := shortest 16 (S754_finite false m e) num den (exp10 num den) 1 in
      let '(d, p) := strip_zeros 20 d0 p0 in
      let digits := dec d in
      let k := Z.of_nat (length digits) in
      ((if s then "-" else "") ++ layout digits k (p + k))%string
  end.

(** The digits of [n] with a point before the last two, as in step 10 of
    Number.prototype.toFixed with two fraction digits. *)
Definition fixed2_digits (n : Z) : string :=
  let m0 := dec n in
  let m := if (length m0 <=? 2)%nat then (repeat0 (3 - length m0) ++ m0)%string
           else m0 in
  let k := length m in
  (take (k - 2) m ++ "." ++ drop (k - 2) m)%string.

(** [x.toFixed(2)] *)
Definition toFixed2 (x : number) : string :=
  match x with
  | S754_finite s m e =>
      let '(num, den) := ratio m e in
      if 10 ^ 21 * den <=? num then toString x
      else
        let a := num * 100 in
        let n := a / den + (if den <=? 2 * (a mod den) then 1 else 0) in
        ((if s then "-" else "") ++ fixed2_digits n)%string
  | S754_zero _ => fixed2_digits 0
  | _ => toString x
  end.

End JsNumber.

(* ================================================================== *)
(** ** The [Diagnostics] object *)

Module Obj.
Import JsString JsNumber.
Open Scope string_scope.

(** [unit: 's' | '' | 'K'] *)
Inductive Unit : Type := USeconds | UKilo | UNone.

Definition unit_string (u : Unit) : string :=
  match u with
  | USeconds => "s"
  | UKilo => "K"
  | UNone => ""
  end.

(** The object literal [{ value: ..., unit: ... }]. *)
Record Metric : Type := mkMetric { value : number; unit : Unit }.

(** A [Diagnostics] object during and after [parseDiagnostics]: its own
    properties in creation order, and the metric object that an
    assignment to the key [__proto__] has installed as its prototype
    ([None] while the prototype is still [Object.prototype]). *)
Record Diagnostics : Type := mkDiagnostics {
  own : list (string * Metric);
  proto : option Metric
}.

Definition empty : Diagnostics := mkDiagnostics [] None.

(** What a property read [d[key]] can give. *)
Inductive JsValue : Type :=
| VUndefined
| VNumber (n : number)
| VString (s : string)
| VMetric (m : Metric)
| VBuiltin.   (* [Object.prototype] itself or one of its methods *)

Fixpoint assoc (l : list (string * Metric)) (key : string) : option Metric :=
  match l with
  | [] => None
  | (k, m) :: l' => if String.eqb k key then Some m else assoc l' key
  end.

(** Writing an own property: an existing key keeps its place. *)
Fixpoint assoc_set (l : list (string * Metric)) (key : string) (m : Metric)
  : list (string * Metric) :=
  match l with
  | [] => [(key, m)]
  | (k, m') :: l' =>
      if String.eqb k key then (k, m) :: l' else (k, m') :: assoc_set l' key m
  end.

(** [d[key] = m] for a metric object [m].  The key [__proto__] reaches
    the accessor inherited from [Object.prototype], which replaces the
    prototype; every other key creates or overwrites an own property. *)
Definition set (d : Diagnostics) (key : string) (m : Metric) : Diagnostics :=
  if String.eqb key "__proto__"
  then mkDiagnostics (own d) (Some m)
  else mkDiagnostics (assoc_set (own d) key m) (proto d).

(** The names of the data properties of [Object.prototype]. *)
Definition object_prototype_names : list string :=
  [ "constructor"; "hasOwnProperty"; "isPrototypeOf"; "propertyIsEnumerable";
    "toLocaleString"; "toString"; "valueOf"; "__defineGetter__";
    "__defineSetter__"; "__lookupGetter__"; "__lookupSetter__" ].

Definition mem (key : string) (l : list string) : bool :=
  existsb (String.eqb key) l.

Definition get_object_prototype (key : string) : JsValue :=
  if mem key object_prototype_names then VBuiltin else VUndefined.

(** [d[key]]: own properties first, then the prototype chain. *)
Definition get (d : Diagnostics) (key : string) : JsValue :=
  match assoc (own d) key with
  | Some m => VMetric m
  | None =>
      if String.eqb key "__proto__" then
        match proto d with
        | Some p => VMetric p
        | None => VBuiltin
        end
      else
        match proto d with
        | Some p =>
            if String.eqb key "value" then VNumber (value p)
            else if String.eqb key "unit" then VString (unit_string (unit p))
            else get_object_prototype key
        | None => get_object_prototype key
        end
  end.

(** Array indices: the canonical decimal strings of 0 .. 2^32 - 2. *)
Definition array_index (key : string) : option Z :=
  let '(n, cnt, rest) := scan digit_val 10 key 0 O in
  match cnt, rest with
  | S _, "" =>
      if String.eqb (dec n) key && (n <=? 4294967294)%Z then Some n else None
  | _, _ => None
  end.

Fixpoint insert_index (i : Z) (key : string) (l : list (Z * string))
  : list (Z * string) :=
  match l with
  | [] => [(i, key)]
  | (j, k) :: l' =>
      if (i <=? j)%Z then (i, key) :: l else (j, k) :: insert_index i key l'
  end.

(** The own keys split into array indices (sorted) and the others (in
    creation order). *)
Fixpoint own_keys (l : list string) : list (Z * string) * list string :=
  match l with
  | [] => ([], [])
  | k :: l' =>
      let '(idx, str) := own_keys l' in
      match array_index k with
      | Some i => (insert_index i k idx, str)
      | None => (idx, k :: str)
      end
  end.

(** The keys that [for (const key in d)] visits: own array indices in
    ascending order, own string keys in creation order, then the
    enumerable properties of the prototype that no own key shadows. *)
Definition for_in (d : Diagnostics) : list string :=
  let keys := map fst (own d) in
  let '(idx, str) := own_keys keys in
  (map snd idx ++ str
   ++ match proto d with
      | Some _ => filter (fun k => negb (mem k keys)) ["value"; "unit"]
      | None => []
      end)%list.

(** [ToBoolean] *)
Definition truthy (v : JsValue) : bool :=
  match v with
  | VUndefined => false
  | VNumber n => negb (isNaN n || eqb n zero)
  | VString s => negb (String.eqb s "")
  | VMetric _ => true
  | VBuiltin => true
  end.

(** [a || b] *)
Definition or_else (a b : JsValue) : JsValue := if truthy a then a else b.

(** [v.value]: [None] is [undefined].  Reading a property of
    [undefined] throws a TypeError; numbers, strings and the built-ins
    have no property of this name. *)
Definition get_value (v : JsValue) : result (option number) :=
  match v with
  | VUndefined => Throw "TypeError"
  | VMetric m => Normal (Some (value m))
  | _ => Normal None
  end.

(** [v.unit] *)
Definition get_unit (v : JsValue) : result (option string) :=
  match v with
  | VUndefined => Throw "TypeError"
  | VMetric m => Normal (Some (unit_string (unit m)))
  | _ => Normal None
  end.

(** [ToNumber] of a number or [undefined] *)
Definition to_number (v : option number) : number :=
  match v with
  | Some n => n
  | None => NaN
  end.

(** [`${v}`] of a number or [undefined] *)
Definition number_text (v : option number) : string :=
  match v with
  | Some n => toString n
  | None => "undefined"
  end.

(** [`${v}`] of a string or [undefined] *)
Definition string_text (v : option string) : string :=
  match v with
  | Some s => s
  | None => "undefined"
  end.

(** [v !== 0] for a number or [undefined] *)
Definition not_zero (v : option number) : bool :=
  match v with
  | Some n => negb (eqb n zero)
  | None => true
  end.

End Obj.

(* ================================================================== *)
(** ** [parseDiagnostics] and [compareDiagnostics] *)

Import JsString JsNumber Obj.
Open Scope string_scope.

(** The three branches on the trimmed value (run.ts, lines 154-169) *)
Definition parseValue (value : string) : Metric :=
  if endsWith value "s"
  then mkMetric (parseFloat (replace value "s" "")) USeconds
  else if endsWith value "K"
  then mkMetric (parseInt (replace value "K" "")) UKilo
  else mkMetric (parseInt value) UNone.

(** The body of the loop over the lines (run.ts, lines 150-170) *)
Definition parseLine (diagnostics : Diagnostics) (line : string) : Diagnostics :=
  match split ":" line with
  | [p0; p1] =>
      let key := trim p0 in
      let value := trim p1 in
      set diagnostics key (parseValue value)
  | _ => diagnostics
  end.

Definition parseDiagnostics (input : string) : Diagnostics :=
  fold_left parseLine (split (ascii_of_N 10) input) empty.

(** The status strings *)
Inductive Status : Type := Unchanged | Increased | Decreased.

Definition symbol (s : Status) : string :=
  match s with
  | Unchanged => "±"
  | Increased => "▲"
  | Decreased => "▼"
  end.

(** [diff] (line 195) *)
Definition diffOf (currentValue prevValue : option number) : number :=
  sub (to_number currentValue) (to_number prevValue).

(** [diffPercentage] (lines 197-200) *)
Definition diffPercentageOf (currentValue : option number) (diff : number) : number :=
  let diffPercentage :=
    if not_zero currentValue
    then mul (div diff (to_number currentValue)) (of_Z 100)
    else zero in
  if isNaN diffPercentage then zero else diffPercentage.

Definition shouldApplyThreshold (key : string) : bool :=
  includes (toLowerCase key) "time".

Definition isWithinThreshold (diff threshold : number) : bool :=
  leb (mul (abs diff) (of_Z 1000)) threshold.

(** [status] (lines 205-212) *)
Definition statusOf (key : string) (diff threshold : number) : Status :=
  if eqb diff zero then Unchanged
  else if shouldApplyThreshold key && isWithinThreshold diff threshold then Unchanged
  else if ltb zero diff then Increased else Decreased.

(** The text appended for one key (lines 214-218) *)
Definition renderRow (key : string) (prevValue prevUnit currentValue currentUnit : string)
           (status : Status) (diffPercentage : number) : string :=
  "| " ++ key ++ " | " ++ prevValue ++ prevUnit ++ " | "
  ++ currentValue ++ currentUnit ++ " | " ++ symbol status ++ " ("
  ++ (if ltb zero diffPercentage then "+" else "") ++ toFixed2 diffPercentage
  ++ "%) |" ++ String (ascii_of_N 10) "".

(** One iteration of the loop over the keys (lines 191-218) *)
Definition row (previousDiagnostics currentDiagnostics : Diagnostics)
           (threshold : number) (key : string) : result string :=
  let prevValue := or_else (get previousDiagnostics key) (VNumber zero) in
  let currentValue := or_else (get currentDiagnostics key) (VNumber zero) in
  cv <- get_value currentValue ;;
  pv <- get_value prevValue ;;
  let diff := diffOf cv pv in
  let diffPercentage := diffPercentageOf cv diff in
  let status := statusOf key diff threshold in
  pu <- get_unit prevValue ;;
  cu <- get_unit currentValue ;;
  Normal (renderRow key (number_text pv) (string_text pu)
                    (number_text cv) (string_text cu) status diffPercentage).

Fixpoint rows (previousDiagnostics currentDiagnostics : Diagnostics)
         (threshold : number) (keys : list string) (markdown : string)
  : result string :=
  match keys with
  | [] => Normal markdown
  | key :: keys' =>
      r <- row previousDiagnostics currentDiagnostics threshold key ;;
      rows previousDiagnostics currentDiagnostics threshold keys' (markdown ++ r)
  end.

Definition nl : string := String (ascii_of_N 10) "".

Definition header : string :=
  "## Diagnostics Comparison:" ++ nl ++ nl
  ++ "<details><summary>Click to expand</summary>" ++ nl ++ nl
  ++ "| Metric | Previous | New | Status |" ++ nl
  ++ "| --- | --- | --- | --- |" ++ nl.

Definition footer : string := "</details>" ++ nl ++ nl.

(** [compareDiagnostics(prev, current, threshold)]; the calls of
    [core.debug] only log and are left out. *)
Definition compareDiagnostics (prev current : string) (threshold : number)
  : result string :=
  let previousDiagnostics := parseDiagnostics prev in
  let currentDiagnostics := parseDiagnostics current in
  markdown <- rows previousDiagnostics currentDiagnostics threshold
                   (for_in currentDiagnostics) header ;;
  Normal (markdown ++ footer).

(* ================================================================== *)
(** ** Notions used in the statements *)

(** The [value] and [unit] fields that the loop reads after [|| 0]:
    only a metric object has them. *)
Definition value_of (v : JsValue) : option number :=
  match v with
  | VMetric m => Some (value m)
  | _ => None
  end.

Definition unit_of (v : JsValue) : option string :=
  match v with
  | VMetric m => Some (unit_string (unit m))
  | _ => None
  end.

(** The metric stored under a key, when [d[key]] is a metric object. *)
Definition entry (d : Diagnostics) (key : string) : option Metric :=
  match get d key with
  | VMetric m => Some m
  | _ => None
  end.

(** The prototype was never stored as an own property. *)
Definition wf (d : Diagnostics) : Prop := assoc (own d) "__proto__" = None.

(** The quantities of one row, as functions of the two snapshots. *)
Definition rowDiff (prevD curD : Diagnostics) (key : string) : number :=
  diffOf (value_of (get curD key)) (value_of (get prevD key)).

Definition rowPercentage (prevD curD : Diagnostics) (key : string) : number :=
  diffPercentageOf (value_of (get curD key)) (rowDiff prevD curD key).

Definition rowStatus (prevD curD : Diagnostics) (threshold : number) (key : string)
  : Status :=
  statusOf key (rowDiff prevD curD key) threshold.

Definition cell (v : JsValue) : string :=
  number_text (value_of v) ++ string_text (unit_of v).

Definition rowText (prevD curD : Diagnostics) (threshold : number) (key : string)
  : string :=
  renderRow key
    (number_text (value_of (get prevD key))) (string_text (unit_of (get prevD key)))
    (number_text (value_of (get curD key))) (string_text (unit_of (get curD key)))
    (rowStatus prevD curD threshold key) (rowPercentage prevD curD key).

(** The rows of a report, one after the other. *)
Definition rowTexts (prevD curD : Diagnostics) (threshold : number)
           (keys : list string) : string :=
  fold_right append "" (map (rowText prevD curD threshold) keys).

(** The signed percentage as a row shows it. *)
Definition percentText (p : number) : string :=
  (if ltb zero p then "+" else "") ++ toFixed2 p.

(** A row with the given cells, status symbol and percentage text. *)
Definition rowOf (key prevCell curCell sym pct : string) : string :=
  "| " ++ key ++ " | " ++ prevCell ++ " | " ++ curCell ++ " | "
  ++ sym ++ " (" ++ pct ++ "%) |" ++ nl.

(** Occurrences of a character, and the text on both sides of its first
    occurrence. *)
Fixpoint count (c : ascii) (s : string) : nat :=
  match s with
  | "" => O
  | String a s' => (if Ascii.eqb a c then 1 else 0) + count c s'
  end.

Fixpoint before (c : ascii) (s : string) : string :=
  match s with
  | "" => ""
  | String a s' => if Ascii.eqb a c then "" else String a (before c s')
  end.

Fixpoint after (c : ascii) (s : string) : string :=
  match s with
  | "" => ""
  | String a s' => if Ascii.eqb a c then s' else after c s'
  end.

(** The trimmed key and value of a line that holds exactly one colon. *)
Definition key_value (line : string) : option (string * string) :=
  match count ":" line with
  | 1%nat => Some (trim (before ":" line), trim (after ":" line))
  | _ => None
  end.

(** The trimmed value of the last line whose trimmed key is [key]. *)
Fixpoint last_value (key : string) (lines : list string) : option string :=
  match lines with
  | [] => None
  | line :: lines' =>
      match last_value key lines' with
      | Some v => Some v
      | None =>
          match key_value line with
          | Some (k, v) => if String.eqb k key then Some v else None
          | None => None
          end
      end
  end.

Definition lines_of (input : string) : list string := split (ascii_of_N 10) input.

(** Increase and decrease swap; unchanged stays. *)
Definition reflectStatus (s : Status) : Status :=
  match s with
  | Unchanged => Unchanged
  | Increased => Decreased
  | Decreased => Increased
  end.

(** The last character removed. *)
Definition strip_last (s : string) : string := take (length s - 1) s.

(** The three branches as the specification words them: the unit suffix
    is stripped and the remainder parsed. *)
Definition parseValue_stated (value : string) : Metric :=
  if endsWith value "s" then mkMetric (parseFloat (strip_last value)) USeconds
  else if endsWith value "K" then mkMetric (parseInt (strip_last value)) UKilo
  else mkMetric (parseInt value) UNone.

Definition is_digit (c : ascii) : bool :=
  let n := N_of_ascii c in ((48 <=? n) && (n <=? 57))%N.

Fixpoint all_digits (s : string) : bool :=
  match s with
  | "" => true
  | String c s' => is_digit c && all_digits s'
  end.

(** An optional minus sign, one or more digits, a point, two digits. *)
Definition two_decimals (s : string) : Prop :=
  exists sg ip d1 d2,
    s = sg ++ ip ++ "." ++ String d1 (String d2 "")
    /\ (sg = "" \/ sg = "-")
    /\ ip <> "" /\ all_digits ip = true
    /\ is_digit d1 = true /\ is_digit d2 = true.

(** The magnitude of a finite number is below 10^21. *)
Definition below_1e21 (x : number) : bool :=
  match x with
  | S754_finite _ m e => let '(num, den) := ratio m e in (num <? 10 ^ 21 * den)%Z
  | S754_zero _ => true
  | _ => false
  end.

(** The texts of the worked example of the specification. *)
Definition example_previous : string :=
  "Check time: 1.200s" ++ nl ++ "Memory used: 100K".

Definition example_current : string :=
  "Check time: 1.450s" ++ nl ++ "Memory used: 100K" ++ nl ++ "Files: 42".




(* ================================================================== *)
(** ** The action around the engine: [run] and [leaveComment]

    The calls that leave the process (commands, git, the package manager
    probe, the GitHub API) are the constructors of [Call]; a program is a
    tree of such calls, and a [World] answers each call with a value or
    a thrown value.  [core.info] and [core.setFailed] are outputs, they
    do not throw; [core.debug] only logs and is left out, as in
    [compareDiagnostics]. *)

(** A thrown value: an [Error] with its message, or any other value. *)
Inductive Thrown : Type :=
| ErrorObject (message : string)
| NotAnError.

Inductive Outcome (A : Type) : Type :=
| Returned (a : A)
| Raised (t : Thrown).

Arguments Returned {A} a.
Arguments Raised {A} t.

(** The result of [exec.getExecOutput] *)
Record ExecOutput : Type := mkExecOutput {
  exitCode : Z;
  stdout : string;
  stderr : string
}.

(** An issue comment as [leaveComment] reads it: [body] may be absent. *)
Record Comment : Type := mkComment {
  id : Z;
  body : option string
}.

(** The ambient [github.context]: [context.repo] (a getter that throws
    without repository information), [payload.repository?.html_url] and
    the number of [payload.pull_request], when there is one. *)
Record Context : Type := mkContext {
  context_repo : Outcome (string * string);   (* owner, repo *)
  repository_html_url : option string;
  pull_request : option Z
}.

Inductive Call : Type -> Type :=
| GetExecOutput (commandLine : string) : Call ExecOutput
| Exec (commandLine : string) (args : list string) : Call Z
| GitFetch (token : option string) (branch : string) : Call Datatypes.unit
| GitCmd (options args : list string) : Call Datatypes.unit
| Detect : Call string
| GetServerUrl (url : option string) : Call string
| GetOctokit (token : string) : Call Datatypes.unit
| ListComments (owner repo : string) (issue_number : Z) : Call (list Comment)
| UpdateComment (owner repo : string) (comment_id issue_number : Z) (text : string)
  : Call Comment
| CreateComment (owner repo : string) (issue_number : Z) (text : string)
  : Call Comment.

Inductive Output : Type :=
| Info (message : string)
| SetFailed (message : string).

Inductive Prog (A : Type) : Type :=
| Ret (a : A)
| Raise (t : Thrown)
| Out (o : Output) (next : Prog A)
| Do (X : Type) (c : Call X) (k : Outcome X -> Prog A).

Arguments Ret {A} a.
Arguments Raise {A} t.
Arguments Out {A} o next.
Arguments Do {A X} c k.

(** [await c]: the value of the call, or its thrown value rethrown *)
Definition call {X : Type} (c : Call X) : Prog X :=
  Do c (fun o => match o with
                 | Returned x => Ret x
                 | Raised t => Raise t
                 end).

Fixpoint bindP {A B : Type} (p : Prog A) (f : A -> Prog B) : Prog B :=
  match p with
  | Ret a => f a
  | Raise t => Raise t
  | Out o next => Out o (bindP next f)
  | Do c k => Do c (fun o => bindP (k o) f)
  end.

(** [try { p } catch (error) { h error }] *)
Fixpoint catchP {A : Type} (p : Prog A) (h : Thrown -> Prog A) : Prog A :=
  match p with
  | Ret a => Ret a
  | Raise t => h t
  | Out o next => Out o (catchP next h)
  | Do c k => Do c (fun o => catchP (k o) h)
  end.

Notation "x <~ c1 ;; c2" := (bindP c1 (fun x => c2))
  (at level 61, c1 at next level, right associativity).

(** What an observer sees, in order. *)
Inductive Event : Type :=
| EInfo (message : string)
| ESetFailed (message : string)
| EGetExecOutput (commandLine : string) (r : Outcome ExecOutput)
| EExec (commandLine : string) (args : list string) (r : Outcome Z)
| EGitFetch (token : option string) (branch : string) (r : Outcome Datatypes.unit)
| EGitCmd (options args : list string) (r : Outcome Datatypes.unit)
| EDetect (r : Outcome string)
| EGetServerUrl (url : option string) (r : Outcome string)
| EGetOctokit (token : string) (r : Outcome Datatypes.unit)
| EListComments (owner repo : string) (issue_number : Z) (r : Outcome (list Comment))
| EUpdateComment (owner repo : string) (comment_id issue_number : Z) (text : string)
                 (r : Outcome Comment)
| ECreateComment (owner repo : string) (issue_number : Z) (text : string)
                 (r : Outcome Comment).

Definition event_of_output (o : Output) : Event :=
  match o with
  | Info m => EInfo m
  | SetFailed m => ESetFailed m
  end.

Definition event_of_call {X : Type} (c : Call X) : Outcome X -> Event :=
  match c in Call T return Outcome T -> Event with
  | GetExecOutput cmd => EGetExecOutput cmd
  | Exec cmd args => EExec cmd args
  | GitFetch token branch => EGitFetch token branch
  | GitCmd options args => EGitCmd options args
  | Detect => EDetect
  | GetServerUrl url => EGetServerUrl url
  | GetOctokit token => EGetOctokit token
  | ListComments owner repo n => EListComments owner repo n
  | UpdateComment owner repo cid n text => EUpdateComment owner repo cid n text
  | CreateComment owner repo n text => ECreateComment owner repo n text
  end.

(** The outside: a state and an answer to every call. *)
Record World : Type := mkWorld {
  state : Type;
  handle : forall X : Type, Call X -> state -> Outcome X * state
}.

(** One execution: the events, how the program ended, the final state
    of the world. *)
Record Run (A S : Type) : Type := mkRun {
  trace : list Event;
  outcome : Outcome A;
  final : S
}.

Definition emit {A S : Type} (e : Event) (r : Run A S) : Run A S :=
  mkRun (e :: trace r) (outcome r) (final r).

Fixpoint interp (w : World) {A : Type} (p : Prog A) (s : state w)
  : Run A (state w) :=
  match p with
  | Ret a => mkRun [] (Returned a) s
  | Raise t => mkRun [] (Raised t) s
  | Out o next => emit (event_of_output o) (interp w next s)
  | Do c k =>
      let '(o, s') := handle w c s in
      emit (event_of_call c o) (interp w (k o) s')
  end.

(** [v || d] for a string [v] *)
Definition string_or (v d : string) : string :=
  if String.eqb v "" then d else v.

(** [v || undefined] for a string [v] *)
Definition string_or_undefined (v : string) : option string :=
  if String.eqb v "" then None else Some v.

(** [parseInt(v) || 300] (line 11) *)
Definition tresholdOf (v : string) : number :=
  let n := parseInt v in
  if truthy (VNumber n) then n else of_Z 300.

(** The command that prints the diagnostics (lines 24-28) *)
Definition commandOf (customCommand : option string) (tsc : string) (extended : bool)
  : string :=
  match customCommand with
  | Some c => c
  | None =>
      tsc ++ " " ++ (if extended then "--extendedDiagnostics" else "--diagnostics")
      ++ " --incremental false"
  end.

Definition marker : string := "Diagnostics Comparison".

(** [getCurrentPRID] (lines 94-100) *)
Definition getCurrentPRID (ctx : Context) : Prog Z :=
  match pull_request ctx with
  | None => Raise (ErrorObject "This action can only be run in PR context")
  | Some n => Ret n
  end.

(** The repository metadata that [leaveComment] uses: owner and name. *)
Record RepoMetadata : Type := mkRepoMetadata {
  name : string;
  owner_login : string;
  html_url : string
}.

(** [getCurrentRepoMetadata] (lines 79-92) *)
Definition getCurrentRepoMetadata (ctx : Context) : Prog RepoMetadata :=
  match context_repo ctx with
  | Raised t => Raise t
  | Returned (owner, repo) =>
      serverUrl <~ call (GetServerUrl (repository_html_url ctx)) ;;
      Ret (mkRepoMetadata repo owner (serverUrl ++ "/" ++ owner ++ "/" ++ repo))
  end.

(** The comment that [comments.find] returns (lines 111-113) *)
Definition findReport (comments : list Comment) : option Comment :=
  find (fun c => match body c with
                 | Some b => includes b marker
                 | None => false
                 end) comments.

(** [leaveComment] (lines 102-136) *)
Definition leaveComment (text token : string) (ctx : Context) : Prog Comment :=
  repoMetadata <~ getCurrentRepoMetadata ctx ;;
  _ <~ call (GetOctokit token) ;;
  issue <~ getCurrentPRID ctx ;;
  comments <~ call (ListComments (owner_login repoMetadata) (name repoMetadata) issue) ;;
  match findReport comments with
  | Some previousComment =>
      issue' <~ getCurrentPRID ctx ;;
      _ <~ call (UpdateComment (owner_login repoMetadata) (name repoMetadata)
                               (id previousComment) issue' text) ;;
      Ret previousComment
  | None =>
      issue' <~ getCurrentPRID ctx ;;
      call (CreateComment (owner_login repoMetadata) (name repoMetadata) issue' text)
  end.

(** The dependency installation (lines 43-53) *)
Definition installDependencies (packageManager : string) : Prog Datatypes.unit :=
  if String.eqb packageManager "yarn" then
    _ <~ call (Exec "yarn" []) ;; Ret tt
  else if String.eqb packageManager "npm" then
    _ <~ call (Exec "npm" ["install"]) ;; Ret tt
  else if String.eqb packageManager "pnpm" then
    _ <~ call (Exec "pnpm" ["install"]) ;; Ret tt
  else
    Raise (ErrorObject ("Package manager " ++ packageManager
                        ++ " is not supported. Please use yarn, npm or pnpm")).

(** The body of the [try] block of [run] (lines 20-73) *)
Definition runBody (getInput : string -> string) (ctx : Context) : Prog Datatypes.unit :=
  let baseBranch := string_or (getInput "base-branch") "main" in
  let treshold := tresholdOf (getInput "treshold") in
  let customCommand := string_or_undefined (getInput "custom-command") in
  let extended := String.eqb (getInput "extended") "true" in
  let shouldLeaveComment := String.eqb (getInput "leave-comment") "true" in
  let githubToken := string_or_undefined (getInput "github-token") in
  binOutput <~ call (GetExecOutput "yarn bin") ;;
  let bin := trim (stdout binOutput) in
  let tsc := bin ++ "/tsc" in
  let command := commandOf customCommand tsc extended in
  newResult <~ call (GetExecOutput command) ;;
  _ <~ match customCommand with
       | Some c =>
           if negb (includes (stdout newResult) "Check time")
           then Raise (ErrorObject
                  ("Custom command '" ++ c
                   ++ "' does not output '--extendedDiagnostics' or '--diagnostics' flag. Please add it to your command."))
           else Ret tt
       | None => Ret tt
       end ;;
  _ <~ call (GitFetch githubToken baseBranch) ;;
  _ <~ call (GitCmd [] ["checkout"; baseBranch]) ;;
  packageManager <~ call Detect ;;
  _ <~ installDependencies packageManager ;;
  previousResult <~ call (GetExecOutput command) ;;
  diff <~ match compareDiagnostics (stdout previousResult) (stdout newResult) treshold with
          | Normal d => Ret d
          | Throw e => Raise (ErrorObject e)
          end ;;
  Out (Info diff)
    (_ <~ (if shouldLeaveComment then
             match githubToken with
             | None =>
                 Raise (ErrorObject
                   "'github-token' is not set. Please give API token to send commit comment")
             | Some token => _ <~ leaveComment diff token ctx ;; Ret tt
             end
           else Ret tt) ;;
     Out (Info "Finished!") (Ret tt)).

(** [run] (lines 7-77): every [Error] thrown in the body is reported
    through [core.setFailed]; any other thrown value is dropped. *)
Definition run (getInput : string -> string) (ctx : Context) : Prog Datatypes.unit :=
  Out (Info "Starting...")
    (catchP (runBody getInput ctx)
            (fun error =>
               match error with
               | ErrorObject message => Out (SetFailed message) (Ret tt)
               | NotAnError => Ret tt
               end)).

(** The value that a call of the trace threw, if it threw. *)
Definition thrown_of {A : Type} (r : Outcome A) : option Thrown :=
  match r with
  | Returned _ => None
  | Raised t => Some t
  end.

Definition raisedBy (e : Event) : option Thrown :=
  match e with
  | EInfo _ | ESetFailed _ => None
  | EGetExecOutput _ r => thrown_of r
  | EExec _ _ r => thrown_of r
  | EGitFetch _ _ r => thrown_of r
  | EGitCmd _ _ r => thrown_of r
  | EDetect r => thrown_of r
  | EGetServerUrl _ r => thrown_of r
  | EGetOctokit _ r => thrown_of r
  | EListComments _ _ _ r => thrown_of r
  | EUpdateComment _ _ _ _ _ r => thrown_of r
  | ECreateComment _ _ _ _ r => thrown_of r
  end.

(** The events of [leaveComment]: the GitHub client and its requests. *)
Definition isGitHubCall (e : Event) : bool :=
  match e with
  | EGetServerUrl _ _ | EGetOctokit _ _ | EListComments _ _ _ _
  | EUpdateComment _ _ _ _ _ _ | ECreateComment _ _ _ _ _ => true
  | _ => false
  end.

Definition isCreateComment (e : Event) : bool :=
  match e with
  | ECreateComment _ _ _ _ _ => true
  | _ => false
  end.

(** A world for the examples: [yarn bin] prints a path, the diagnostics
    command prints the current text of the worked example the first
    time and the previous text afterwards (the state counts its runs),
    the package manager is npm, and the pull request has the comments
    [comments]. *)
Definition sampleHandle (comments : list Comment) (X : Type) (c : Call X) (n : nat)
  : Outcome X * nat :=
  match c in Call T return Outcome T * nat with
  | GetExecOutput cmd =>
      if String.eqb cmd "yarn bin"
      then (Returned (mkExecOutput 0 ("/w/node_modules/.bin" ++ nl) ""), n)
      else (Returned (mkExecOutput 0 (match n with
                                      | O => example_current
                                      | S _ => example_previous
                                      end) ""), S n)
  | Exec _ _ => (Returned 0%Z, n)
  | GitFetch _ _ => (Returned tt, n)
  | GitCmd _ _ => (Returned tt, n)
  | Detect => (Returned "npm", n)
  | GetServerUrl _ => (Returned "https://github.com", n)
  | GetOctokit _ => (Returned tt, n)
  | ListComments _ _ _ => (Returned comments, n)
  | UpdateComment _ _ cid _ text => (Returned (mkComment cid (Some text)), n)
  | CreateComment _ _ _ text => (Returned (mkComment 1 (Some text)), n)
  end.

Definition sampleWorld (comments : list Comment) : World :=
  mkWorld (sampleHandle comments).

Definition sampleContext : Context :=
  mkContext (Returned ("beerose", "ts-diff")) None (Some 7%Z).

Definition sampleInputs (name : string) : string :=
  if String.eqb name "leave-comment" then "true"
  else if String.eqb name "github-token" then "token"
  else "".

(** A program rethrows what its calls throw: no call's failure is
    handled in place. *)
Fixpoint propagates {A : Type} (p : Prog A) : Prop :=
  match p with
  | Ret _ | Raise _ => True
  | Out _ next => propagates next
  | Do c k => (forall t, k (Raised t) = Raise t)
              /\ (forall x, propagates (k (Returned x)))
  end.

(** Every call that a program can make satisfies [P]. *)
Fixpoint every_call (P : forall X : Type, Call X -> Prop) {A : Type} (p : Prog A)
  : Prop :=
  match p with
  | Ret _ | Raise _ => True
  | Out _ next => every_call P next
  | Do c k => P _ c /\ (forall o, every_call P (k o))
  end.

(** The calls of [leaveComment]. *)
Definition isGitHubRequest {X : Type} (c : Call X) : bool :=
  match c with
  | GetServerUrl _ | GetOctokit _ | ListComments _ _ _
  | UpdateComment _ _ _ _ _ | CreateComment _ _ _ _ => true
  | _ => false
  end.

(** The calls that list or write comments. *)
Definition isCommentRequest {X : Type} (c : Call X) : bool :=
  match c with
  | ListComments _ _ _ | UpdateComment _ _ _ _ _ | CreateComment _ _ _ _ => true
  | _ => false
  end.

Definition isCommentCall (e : Event) : bool :=
  match e with
  | EListComments _ _ _ _ | EUpdateComment _ _ _ _ _ _ | ECreateComment _ _ _ _ _ => true
  | _ => false
  end.

(** The events of a run that ended with [Finished!]: what was called,
    in which order, and which report was printed. *)
Definition SuccessTrace (getInput : string -> string) (events : list Event) : Prop :=
  exists binOutput newResult packageManager code previousResult report comment_events,
    let command :=
      commandOf (string_or_undefined (getInput "custom-command"))
                (trim (stdout binOutput) ++ "/tsc")
                (String.eqb (getInput "extended") "true") in
    let baseBranch := string_or (getInput "base-branch") "main" in
    events
    = ([EInfo "Starting...";
        EGetExecOutput "yarn bin" (Returned binOutput);
        EGetExecOutput command (Returned newResult);
        EGitFetch (string_or_undefined (getInput "github-token")) baseBranch
                  (Returned tt);
        EGitCmd [] ["checkout"; baseBranch] (Returned tt);
        EDetect (Returned packageManager);
        EExec packageManager
              (if String.eqb packageManager "yarn" then [] else ["install"])
              (Returned code);
        EGetExecOutput command (Returned previousResult);
        EInfo report]
       ++ comment_events ++ [EInfo "Finished!"])%list
    /\ compareDiagnostics (stdout previousResult) (stdout newResult)
                          (tresholdOf (getInput "treshold")) = Normal report
    /\ In packageManager ["yarn"; "npm"; "pnpm"]
    /\ Forall (fun e => isGitHubCall e = true) comment_events.

(** The example world with a fetch that fails. *)
Definition failingHandle (X : Type) (c : Call X) (n : nat) : Outcome X * nat :=
  match c in Call T return Outcome T * nat with
  | GitFetch _ _ => (Raised (ErrorObject "fetch failed"), n)
  | c' => sampleHandle [] c' n
  end.

Definition failingWorld : World := mkWorld failingHandle.

(** The inputs that [run] reads. *)
Definition inputNames : list string :=
  ["base-branch"; "treshold"; "custom-command"; "extended"; "leave-comment";
   "github-token"].


(* ================================================================== *)
(** ** Further notions used in the statements *)

(** The place of a number in the order that [<=] tests: class, then
    exponent, then mantissa. *)
Definition order_key (x : number) : Z * Z * Z :=
  match x with
  | S754_infinity true => (-2, 0, 0)%Z
  | S754_finite true m e => (-1, - e, - Zpos m)%Z
  | S754_zero _ => (0, 0, 0)%Z
  | S754_finite false m e => (1, e, Zpos m)%Z
  | S754_infinity false => (2, 0, 0)%Z
  | S754_nan => (3, 0, 0)%Z
  end.

Definition key_le (a b : Z * Z * Z) : Prop :=
  let '(a1, a2, a3) := a in
  let '(b1, b2, b3) := b in
  (a1 < b1 \/ (a1 = b1 /\ (a2 < b2 \/ (a2 = b2 /\ a3 <= b3))))%Z.

(** The sign bit of a number is [s] (nothing is asked of not-a-number). *)
Definition has_sign (s : bool) (x : number) : Prop :=
  match x with
  | S754_nan => True
  | S754_zero s' | S754_infinity s' | S754_finite s' _ _ => s' = s
  end.

(** The keys of the lines with exactly one colon, in the order of their
    first occurrence, [__proto__] left out. *)
Fixpoint first_keys (lines : list string) (seen : list string) : list string :=
  match lines with
  | [] => seen
  | line :: lines' =>
      match key_value line with
      | Some (k, _) =>
          if String.eqb k "__proto__" || mem k seen
          then first_keys lines' seen
          else first_keys lines' (seen ++ [k])
      | None => first_keys lines' seen
      end
  end.

(** The keys that are no array index. *)
Definition not_index (key : string) : bool :=
  match array_index key with
  | Some _ => false
  | None => true
  end.

(** Ascending order of the indices. *)
Fixpoint ascending (l : list (Z * string)) : Prop :=
  match l with
  | [] => True
  | (i, _) :: l' => (forall j k, In (j, k) l' -> (i <= j)%Z) /\ ascending l'
  end.

(** [Database] (lines 227-241): a stub whose [query] gives nothing for
    an empty text, and whose [get] gives the same two dates for every
    argument object. *)
Record Row : Type := mkRow {
  row_last_processed : string;
  row_last_known_update : string
}.

Definition Database_get (args : list (string * number)) : option Row :=
  Some (mkRow "2019-01-01" "2019-01-01").

Definition Database_query (query : string)
  : option (list (string * number) -> option Row) :=
  if String.eqb query "" then None else Some Database_get.

(** The result of [ensureSubmissionsAreUptodate]: [last_processed] is
    [null] in the second [return]. *)
Record Submissions : Type := mkSubmissions {
  last_processed : option string;
  last_known_update : string
}.

(** [ensureSubmissionsAreUptodate] (lines 252-272); [today] stands for
    [new Date().toISOString().slice(0, 10)]. *)
Definition ensureSubmissionsAreUptodate (cik : number) (today : string)
  : Submissions :=
  let processedDatesQuery :=
    Database_query
      "SELECT last_processed, last_known_update FROM edgar_submissions WHERE cik=$cik" in
  let last_known_update : option string := None in
  let result :=
    match processedDatesQuery with
    | Some get => get [("$cik", cik)]
    | None => None
    end in
  match result with
  | Some r => mkSubmissions (Some (row_last_processed r)) (row_last_known_update r)
  | None =>
      mkSubmissions None
        (match last_known_update with
         | Some d => if String.eqb d "" then today else d
         | None => today
         end)
  end.

(** The template literal types [YYYY], [MM], [DD] and [FullDateString]
    (lines 243-250) as tests on texts. *)
Definition digit_between (lo hi : N) (c : ascii) : bool :=
  ((lo <=? N_of_ascii c) && (N_of_ascii c <=? hi))%N.

Definition is_YYYY (a b c d : ascii) : bool :=
  ((Ascii.eqb a "1" && Ascii.eqb b "9") || (Ascii.eqb a "2" && Ascii.eqb b "0"))
  && digit_between 48 57 c && digit_between 48 57 d.

Definition is_MM (a b : ascii) : bool :=
  (Ascii.eqb a "0" && digit_between 49 57 b)
  || (Ascii.eqb a "1" && digit_between 48 50 b).

Definition is_DD (a b : ascii) : bool :=
  (Ascii.eqb a "0" && digit_between 49 57 b)
  || (digit_between 49 50 a && digit_between 48 57 b)
  || (Ascii.eqb a "3" && digit_between 48 49 b).

Definition is_FullDateString (s : string) : bool :=
  match s with
  | String y1 (String y2 (String y3 (String y4 (String h1 (String m1 (String m2
      (String h2 (String d1 (String d2 ""))))))))) =>
      is_YYYY y1 y2 y3 y4 && Ascii.eqb h1 "-" && is_MM m1 m2
      && Ascii.eqb h2 "-" && is_DD d1 d2
  | _ => false
  end.
(* ================================================================== *)
(** * Properties of the embedding *)

(** ** The runtime functions on known values *)

Example toString_examples :
  map (fun s => toString (parseFloat s))
      ["1.200"; "1.450"; "0.1"; "1e21"; "1e23"; "1e-7"; "0.000001"; "5e-324";
       "123456789012345678901234567890"; "1e400"; "-0"; ".5"; "5."; ".";
       "5e+"; "-Infinity"; "9007199254740993"; "abc"]
  = ["1.2"; "1.45"; "0.1"; "1e+21"; "1e+23"; "1e-7"; "0.000001"; "5e-324";
     "1.2345678901234568e+29"; "Infinity"; "0"; "0.5"; "5"; "NaN";
     "5"; "-Infinity"; "9007199254740992"; "NaN"].
Proof. vm_compute. reflexivity. Qed.

Example parseInt_examples :
  map (fun s => toString (parseInt s))
      ["100"; "  42"; "12.5"; "1e3"; "-5"; "0x1A"; "0x"; "n/a"; ""]
  = ["100"; "42"; "12"; "1"; "-5"; "26"; "NaN"; "NaN"; "NaN"].
Proof. vm_compute. reflexivity. Qed.

Example toFixed2_examples :
  map (fun s => toFixed2 (parseFloat s))
      ["17.241379310344829"; "0"; "-0"; "1.005"; "0.125"; "-2.345"; "999.995";
       "1e20"; "1e21"; "-1e-10"; "Infinity"]
  = ["17.24"; "0.00"; "0.00"; "1.00"; "0.13"; "-2.35"; "1000.00";
     "100000000000000000000.00"; "1e+21"; "-0.00"; "Infinity"].
Proof. vm_compute. reflexivity. Qed.

Example arithmetic_examples :
  toString (sub (parseFloat "1.450") (parseFloat "1.200")) = "0.25"
  /\ toString (sub (parseFloat "0.3") (parseFloat "0.1")) = "0.19999999999999998"
  /\ toString (mul (parseFloat "0.07") (of_Z 100)) = "7.000000000000001".
Proof. repeat split; vm_compute; reflexivity. Qed.

Example string_examples :
  split ":" "a:b:" = ["a"; "b"; ""]
  /\ split ":" "" = [""]
  /\ trim ("  Check time" ++ String (ascii_of_N 9) (String (ascii_of_N 13) "")) = "Check time"
  /\ replace "s1s" "s" "" = "1s"
  /\ endsWith "1.200s" "s" = true
  /\ includes (toLowerCase "Check Time") "time" = true.
Proof. repeat split; vm_compute; reflexivity. Qed.

(** Array indices come first, in ascending order; the key [__proto__]
    installs a prototype, whose two fields are then visited as well. *)
Example for_in_examples :
  for_in (parseDiagnostics ("Files: 1" ++ nl ++ "10: 2" ++ nl ++ "9: 3" ++ nl
                            ++ "Files: 4" ++ nl ++ "a:b:c" ++ nl ++ "Types: 5"))
  = ["9"; "10"; "Files"; "Types"]
  /\ for_in (parseDiagnostics ("Files: 1" ++ nl ++ "__proto__: 2")) = ["Files"; "value"; "unit"]
  /\ get (parseDiagnostics ("Files: 1" ++ nl ++ "__proto__: 2")) "__proto__"
     = VMetric (mkMetric (of_Z 2) UNone)
  /\ get (parseDiagnostics "Files: 1") "toString" = VBuiltin
  /\ get (parseDiagnostics "Files: 1") "Types" = VUndefined.
Proof. repeat split; vm_compute; reflexivity. Qed.

(** ** Numbers *)

Lemma binary_round_aux_opp (s : bool) (m e : Z) (l : location) :
  binary_round_aux prec emax (negb s) m e l
  = SFopp (binary_round_aux prec emax s m e l).
Proof.
  unfold binary_round_aux.
  destruct (shr_fexp prec emax m e l) as [mrs' e'].
  destruct (shr_fexp prec emax _ e' loc_Exact) as [mrs'' e''].
  destruct (shr_m mrs''); try reflexivity.
  destruct (e'' <=? emax - prec)%Z; reflexivity.
Qed.

Lemma binary_round_opp (s : bool) (m : positive) (e : Z) :
  binary_round prec emax (negb s) m e = SFopp (binary_round prec emax s m e).
Proof.
  unfold binary_round.
  destruct (shl_align m e _) as [mz ez].
  apply binary_round_aux_opp.
Qed.

Lemma binary_normalize_opp (z e : Z) :
  z <> 0%Z ->
  binary_normalize prec emax (- z) e false
  = SFopp (binary_normalize prec emax z e false).
Proof.
  destruct z as [|p|p]; intros Hz; simpl.
  - congruence.
  - apply (binary_round_opp false).
  - change false with (negb true) at 1.
    rewrite <- (binary_round_opp true). reflexivity.
Qed.

(** Swapping the operands of a subtraction negates the result; when the
    operands are equal both results are the zero [+0]. *)
Lemma sub_swap (a b : number) :
  sub b a = neg (sub a b) \/ (sub a b = zero /\ sub b a = zero).
Proof.
  destruct a as [sa|sa| |sa ma ea], b as [sb|sb| |sb mb eb];
    try (left; reflexivity);
    try (destruct sa, sb; simpl; auto; fail).
  unfold sub, SFsub. rewrite (Z.min_comm eb ea).
  set (x := cond_Zopp sa (Z.pos (fst (shl_align ma ea (Z.min ea eb))))).
  set (y := cond_Zopp sb (Z.pos (fst (shl_align mb eb (Z.min ea eb))))).
  destruct (Z.eq_dec (x - y) 0) as [E|E].
  - right. replace (y - x)%Z with 0%Z by lia. rewrite E. split; reflexivity.
  - left. replace (y - x)%Z with (- (x - y))%Z by lia.
    apply binary_normalize_opp. exact E.
Qed.

Lemma sub_self (x : number) : isFinite x = true -> sub x x = zero.
Proof.
  destruct x as [s|s| |s m e]; simpl; intros H; try discriminate.
  - destruct s; reflexivity.
  - unfold sub, SFsub. rewrite Z.sub_diag. reflexivity.
Qed.

Lemma sub_nan_l (x : number) : sub NaN x = NaN.
Proof. reflexivity. Qed.

Lemma sub_nan_r (x : number) : sub x NaN = NaN.
Proof. destruct x; reflexivity. Qed.

Lemma eqb_neg_zero (d : number) : eqb (neg d) zero = eqb d zero.
Proof. destruct d as [s|s| |s m e]; try destruct s; reflexivity. Qed.

Lemma abs_neg (d : number) : abs (neg d) = abs d.
Proof. destruct d; reflexivity. Qed.

Lemma ltb_zero_neg (d : number) : ltb zero (neg d) = ltb d zero.
Proof. destruct d as [s|s| |s m e]; try destruct s; reflexivity. Qed.

Lemma ltb_neg_zero (d : number) : ltb (neg d) zero = ltb zero d.
Proof. destruct d as [s|s| |s m e]; try destruct s; reflexivity. Qed.

(** A number is zero, below zero, above zero, or not a number. *)
Lemma sign_cases (d : number) :
  (eqb d zero = true /\ ltb zero d = false /\ ltb d zero = false /\ isNaN d = false)
  \/ (eqb d zero = false /\ ltb zero d = true /\ ltb d zero = false /\ isNaN d = false)
  \/ (eqb d zero = false /\ ltb zero d = false /\ ltb d zero = true /\ isNaN d = false)
  \/ (eqb d zero = false /\ ltb zero d = false /\ ltb d zero = false /\ isNaN d = true).
Proof.
  destruct d as [s|s| |s m e]; try destruct s; cbn; tauto.
Qed.

Ltac by_sign d :=
  destruct (sign_cases d)
    as [(?E & ?P & ?M & ?N)|[(?E & ?P & ?M & ?N)|[(?E & ?P & ?M & ?N)|(?E & ?P & ?M & ?N)]]].

Lemma eqb_leb (x y : number) : eqb x y = true -> leb x y = true.
Proof.
  unfold eqb, leb, SFeqb, SFleb.
  destruct (SFcompare x y) as [[| |]|]; congruence.
Qed.

Lemma of_Z_100 : of_Z 100 = S754_finite false 7036874417766400 (-46).
Proof. reflexivity. Qed.

Lemma of_Z_1000 : of_Z 1000 = S754_finite false 8796093022208000 (-43).
Proof. reflexivity. Qed.

Lemma mul_nan_l (x : number) : mul NaN x = NaN.
Proof. reflexivity. Qed.

Lemma div_nan_l (x : number) : div NaN x = NaN.
Proof. reflexivity. Qed.

Lemma leb_nan_l (x : number) : leb NaN x = false.
Proof. reflexivity. Qed.

(** ** Strings *)

Lemma str_app_assoc (a b c : string) : (a ++ b) ++ c = a ++ (b ++ c).
Proof. induction a as [|x a IH]; simpl; [reflexivity | now rewrite IH]. Qed.

Lemma str_app_nil_r (a : string) : a ++ "" = a.
Proof. induction a as [|x a IH]; simpl; [reflexivity | now rewrite IH]. Qed.

Lemma startsWith_nil (s : string) : startsWith s "" = true.
Proof. destruct s; reflexivity. Qed.

Lemma startsWith_app (s t : string) : startsWith (t ++ s) t = true.
Proof.
  induction t as [|x t IH]; simpl; [apply startsWith_nil|].
  now rewrite Ascii.eqb_refl, IH.
Qed.

Lemma startsWith_inv (s t : string) :
  startsWith s t = true -> exists r, s = t ++ r.
Proof.
  revert s. induction t as [|x t IH]; intros s H; simpl in *.
  - now exists s.
  - destruct s as [|y s]; [discriminate|].
    apply andb_true_iff in H as [Hxy Hst].
    apply Ascii.eqb_eq in Hxy as ->.
    destruct (IH _ Hst) as [r ->]. now exists r.
Qed.

(** [includes] finds exactly the substrings. *)
Lemma includes_spec (s t : string) :
  includes s t = true <-> exists a b, s = a ++ t ++ b.
Proof.
  split.
  - induction s as [|x s IH]; cbn [includes]; intros H.
    + apply orb_true_iff in H as [H|H]; [|discriminate].
      apply startsWith_inv in H as [r ->]. now exists "", r.
    + apply orb_true_iff in H as [H|H].
      * apply startsWith_inv in H as [r ->]. now exists "", r.
      * destruct (IH H) as (a & b & ->). now exists (String x a), b.
  - intros (a & b & ->).
    induction a as [|x a IH].
    + change ("" ++ t ++ b) with (t ++ b).
      destruct (t ++ b) eqn:E; cbn [includes]; rewrite <- E, startsWith_app;
        reflexivity.
    + change (String x a ++ t ++ b) with (String x (a ++ t ++ b)).
      cbn [includes]. rewrite IH. apply orb_true_r.
Qed.

Lemma toLowerCase_app (a b : string) :
  toLowerCase (a ++ b) = toLowerCase a ++ toLowerCase b.
Proof. induction a as [|x a IH]; simpl; [reflexivity | now rewrite IH]. Qed.

Lemma toLowerCase_app_inv (s a b : string) :
  toLowerCase s = a ++ b ->
  exists a' b', s = a' ++ b' /\ toLowerCase a' = a /\ toLowerCase b' = b.
Proof.
  revert s. induction a as [|x a IH]; intros s H; simpl in *.
  - now exists "", s.
  - destruct s as [|y s]; [discriminate|].
    simpl in H. injection H as Hx Hs.
    destruct (IH _ Hs) as (a' & b' & -> & Ha & Hb).
    exists (String y a'), b'. simpl. now rewrite Hx, Ha.
Qed.

(** The threshold applies to the names that hold the word "time" in any
    mix of upper and lower case. *)
Lemma shouldApplyThreshold_iff (key : string) :
  shouldApplyThreshold key = true
  <-> exists a w b, key = a ++ w ++ b /\ toLowerCase w = "time".
Proof.
  unfold shouldApplyThreshold. rewrite includes_spec. split.
  - intros (a & b & H).
    apply toLowerCase_app_inv in H as (a' & r & -> & _ & Hr).
    apply toLowerCase_app_inv in Hr as (w & b' & -> & Hw & _).
    now exists a', w, b'.
  - intros (a & w & b & -> & Hw).
    exists (toLowerCase a), (toLowerCase b).
    now rewrite !toLowerCase_app, Hw.
Qed.

(** ** One row, all rows, the whole report *)

Lemma get_value_or_zero (v : JsValue) :
  get_value (or_else v (VNumber zero)) = Normal (value_of v).
Proof.
  destruct v; unfold or_else; simpl; try reflexivity;
    match goal with |- context [if ?c then _ else _] => destruct c end;
    reflexivity.
Qed.

Lemma get_unit_or_zero (v : JsValue) :
  get_unit (or_else v (VNumber zero)) = Normal (unit_of v).
Proof.
  destruct v; unfold or_else; simpl; try reflexivity;
    match goal with |- context [if ?c then _ else _] => destruct c end;
    reflexivity.
Qed.

(** The loop body never throws, and appends [rowText]. *)
Lemma row_eq (prevD curD : Diagnostics) (threshold : number) (key : string) :
  row prevD curD threshold key = Normal (rowText prevD curD threshold key).
Proof.
  unfold row. rewrite !get_value_or_zero, !get_unit_or_zero. reflexivity.
Qed.

Lemma rows_eq (prevD curD : Diagnostics) (threshold : number)
      (keys : list string) (markdown : string) :
  rows prevD curD threshold keys markdown
  = Normal (markdown ++ rowTexts prevD curD threshold keys).
Proof.
  revert markdown. induction keys as [|k keys IH]; intros markdown.
  - unfold rowTexts. cbn [rows map fold_right]. now rewrite str_app_nil_r.
  - cbn [rows]. rewrite row_eq. cbn [bind]. rewrite IH.
    unfold rowTexts. cbn [map fold_right]. now rewrite str_app_assoc.
Qed.

Lemma compareDiagnostics_eq (prev current : string) (threshold : number) :
  compareDiagnostics prev current threshold
  = Normal (header
            ++ rowTexts (parseDiagnostics prev) (parseDiagnostics current) threshold
                        (for_in (parseDiagnostics current))
            ++ footer).
Proof.
  unfold compareDiagnostics. rewrite rows_eq. cbn [bind].
  now rewrite str_app_assoc.
Qed.

(** ** Lines and colons *)

Lemma split_count_0 (c : ascii) (s : string) :
  count c s = O -> split c s = [s].
Proof.
  induction s as [|a s IH]; simpl; intros H; [reflexivity|].
  destruct (Ascii.eqb a c); [discriminate|].
  now rewrite (IH H).
Qed.

Lemma split_count_1 (c : ascii) (s : string) :
  count c s = 1%nat -> split c s = [before c s; after c s].
Proof.
  induction s as [|a s IH]; simpl; intros H; [discriminate|].
  destruct (Ascii.eqb a c).
  - injection H as H. now rewrite (split_count_0 _ _ H).
  - now rewrite (IH H).
Qed.

Lemma split_length (c : ascii) (s : string) :
  List.length (split c s) = S (count c s).
Proof.
  induction s as [|a s IH]; simpl; [reflexivity|].
  destruct (Ascii.eqb a c); simpl.
  - now rewrite IH.
  - destruct (split c s) as [|p ps]; [discriminate|]. simpl in *. exact IH.
Qed.

(** The loop body in terms of [key_value]: a line with exactly one
    colon is stored, every other line leaves the object as it is. *)
Lemma parseLine_key_value (d : Diagnostics) (line : string) :
  parseLine d line
  = match key_value line with
    | Some (k, v) => set d k (parseValue v)
    | None => d
    end.
Proof.
  unfold parseLine, key_value.
  pose proof (split_length ":" line) as L.
  destruct (Nat.eq_dec (count ":" line) 1) as [E|E].
  - rewrite E. now rewrite (split_count_1 _ _ E).
  - destruct (split ":" line) as [|a [|b [|c l]]]; simpl in L;
      try (injection L as L; congruence);
      destruct (count ":" line) as [|[|n]]; congruence.
Qed.

(** ** The object as a map *)

Lemma assoc_set_same (l : list (string * Metric)) (k : string) (m : Metric) :
  assoc (assoc_set l k m) k = Some m.
Proof.
  induction l as [|[k0 m0] l IH]; simpl.
  - now rewrite String.eqb_refl.
  - destruct (String.eqb k0 k) eqn:E; simpl; rewrite E; [reflexivity | exact IH].
Qed.

Lemma assoc_set_other (l : list (string * Metric)) (k k' : string) (m : Metric) :
  k <> k' -> assoc (assoc_set l k m) k' = assoc l k'.
Proof.
  intros N. induction l as [|[k0 m0] l IH]; simpl.
  - apply String.eqb_neq in N. now rewrite N.
  - destruct (String.eqb k0 k) eqn:E; simpl.
    + apply String.eqb_eq in E. subst k0.
      apply String.eqb_neq in N. now rewrite N.
    + now rewrite IH.
Qed.

Lemma wf_empty : wf empty.
Proof. reflexivity. Qed.

Lemma wf_set (d : Diagnostics) (k : string) (m : Metric) : wf d -> wf (set d k m).
Proof.
  unfold wf, set. intros W.
  destruct (String.eqb k "__proto__") eqn:E; simpl; [exact W|].
  apply String.eqb_neq in E. now rewrite assoc_set_other.
Qed.

Lemma wf_parseLine (d : Diagnostics) (line : string) : wf d -> wf (parseLine d line).
Proof.
  intros W. rewrite parseLine_key_value.
  destruct (key_value line) as [[k v]|]; [now apply wf_set | exact W].
Qed.

Lemma wf_fold (lines : list string) (d : Diagnostics) :
  wf d -> wf (fold_left parseLine lines d).
Proof.
  revert d. induction lines as [|l ls IH]; intros d W; simpl; [exact W|].
  apply IH. now apply wf_parseLine.
Qed.

Lemma wf_parseDiagnostics (input : string) : wf (parseDiagnostics input).
Proof. apply wf_fold, wf_empty. Qed.

Lemma get_object_prototype_not_metric (key : string) (m : Metric) :
  get_object_prototype key <> VMetric m.
Proof. unfold get_object_prototype. destruct (mem _ _); discriminate. Qed.

(** Without an own property a read gives a metric object only for the
    key [__proto__]. *)
Lemma inherited_entry (p : option Metric) (key : string) :
  String.eqb key "__proto__" = false ->
  match
    match p with
    | Some q =>
        if String.eqb key "value" then VNumber (value q)
        else if String.eqb key "unit" then VString (unit_string (unit q))
        else get_object_prototype key
    | None => get_object_prototype key
    end
  with
  | VMetric m => Some m
  | _ => None
  end = None.
Proof.
  intros _. unfold get_object_prototype.
  destruct p as [q|];
    repeat match goal with |- context [if ?c then _ else _] => destruct c end;
    reflexivity.
Qed.

(** Assignment and lookup: the last metric stored under a key is the one
    that a read of the key gives, for every key. *)
Lemma entry_set (d : Diagnostics) (k k' : string) (m : Metric) :
  wf d ->
  entry (set d k m) k' = if String.eqb k k' then Some m else entry d k'.
Proof.
  unfold wf, entry, get, set. intros W.
  destruct (String.eqb k "__proto__") eqn:Ek; simpl.
  - apply String.eqb_eq in Ek. subst k.
    destruct (String.eqb "__proto__" k') eqn:Ek'.
    + apply String.eqb_eq in Ek'. subst k'. rewrite W. reflexivity.
    + destruct (assoc (own d) k'); [reflexivity|].
      rewrite String.eqb_sym in Ek'. rewrite Ek'.
      rewrite (inherited_entry (Some m) _ Ek').
      now rewrite (inherited_entry (proto d) _ Ek').
  - destruct (String.eqb k k') eqn:Ek'.
    + apply String.eqb_eq in Ek'. subst k'. now rewrite assoc_set_same.
    + apply String.eqb_neq in Ek'. now rewrite assoc_set_other.
Qed.

Lemma entry_empty (key : string) : entry empty key = None.
Proof.
  unfold entry, get, empty. simpl.
  destruct (String.eqb key "__proto__") eqn:E; [reflexivity|].
  apply (inherited_entry None _ E).
Qed.

Lemma entry_fold (key : string) (lines : list string) (d : Diagnostics) :
  wf d ->
  entry (fold_left parseLine lines d) key
  = match last_value key lines with
    | Some v => Some (parseValue v)
    | None => entry d key
    end.
Proof.
  revert d. induction lines as [|l ls IH]; intros d W; [reflexivity|].
  cbn [fold_left last_value].
  rewrite (IH _ (wf_parseLine l W)).
  destruct (last_value key ls) as [v|]; [reflexivity|].
  rewrite parseLine_key_value.
  destruct (key_value l) as [[k v]|]; [|reflexivity].
  rewrite (entry_set _ _ _ W).
  destruct (String.eqb k key); reflexivity.
Qed.

(** What [parseDiagnostics] stores under each key. *)
Lemma entry_parseDiagnostics (input key : string) :
  entry (parseDiagnostics input) key
  = option_map parseValue (last_value key (lines_of input)).
Proof.
  unfold parseDiagnostics. rewrite (entry_fold _ _ wf_empty).
  fold (lines_of input).
  destruct (last_value key (lines_of input)); [reflexivity | apply entry_empty].
Qed.

Lemma entry_get (d : Diagnostics) (key : string) (m : Metric) :
  entry d key = Some m <-> get d key = VMetric m.
Proof.
  unfold entry. destruct (get d key); split; intros H; congruence.
Qed.

(** [last_value] finds a line exactly when some line holds the key. *)
Lemma last_value_some (key : string) (lines : list string) :
  (exists v, last_value key lines = Some v)
  <-> (exists line v, In line lines /\ key_value line = Some (key, v)).
Proof.
  induction lines as [|l ls IH]; cbn [last_value In].
  - split; [intros [v H]; discriminate | intros (l & v & [] & _)].
  - split.
    + intros [v H].
      destruct (last_value key ls) as [v'|] eqn:E.
      * destruct (proj1 IH (ex_intro _ v' eq_refl)) as (l' & w & Hin & Hkv).
        exists l', w. auto.
      * destruct (key_value l) as [[k w]|] eqn:Ekv; [|discriminate].
        destruct (String.eqb k key) eqn:Ek; [|discriminate].
        apply String.eqb_eq in Ek. subst k. exists l, w. auto.
    + intros (l' & w & [Hl|Hin] & Hkv).
      * subst l'. destruct (last_value key ls) as [v'|]; [now exists v'|].
        rewrite Hkv, String.eqb_refl. now exists w.
      * destruct (proj2 IH (ex_intro _ l' (ex_intro _ w (conj Hin Hkv)))) as [v' ->].
        now exists v'.
Qed.

(** ** The keys visited by [for ... in] *)

Lemma insert_index_perm (i : Z) (k : string) (l : list (Z * string)) :
  Permutation (map snd (insert_index i k l)) (k :: map snd l).
Proof.
  induction l as [|[j k0] l IH]; simpl; [apply Permutation_refl|].
  destruct (i <=? j)%Z; simpl; [apply Permutation_refl|].
  apply perm_trans with (k0 :: k :: map snd l).
  - now apply perm_skip.
  - apply perm_swap.
Qed.

Lemma own_keys_perm (l : list string) :
  Permutation (map snd (fst (own_keys l)) ++ snd (own_keys l)) l.
Proof.
  induction l as [|k l IH]; simpl; [apply Permutation_refl|].
  destruct (own_keys l) as [idx str]. simpl in IH.
  destruct (array_index k) as [i|]; simpl.
  - apply perm_trans with ((k :: map snd idx) ++ str)%list.
    + apply Permutation_app_tail, insert_index_perm.
    + simpl. now apply perm_skip.
  - apply Permutation_sym, Permutation_cons_app, Permutation_sym, IH.
Qed.

Lemma keys_assoc_set (l : list (string * Metric)) (k x : string) (m : Metric) :
  In x (map fst (assoc_set l k m)) <-> x = k \/ In x (map fst l).
Proof.
  induction l as [|[k0 m0] l IH]; simpl.
  - intuition congruence.
  - destruct (String.eqb k0 k) eqn:E; simpl.
    + apply String.eqb_eq in E. intuition congruence.
    + rewrite IH. intuition congruence.
Qed.

Lemma NoDup_assoc_set (l : list (string * Metric)) (k : string) (m : Metric) :
  NoDup (map fst l) -> NoDup (map fst (assoc_set l k m)).
Proof.
  induction l as [|[k0 m0] l IH]; simpl; intros H.
  - constructor; [intros [] | constructor].
  - inversion H as [|? ? Hn Hd]; subst.
    destruct (String.eqb k0 k) eqn:E; simpl; [exact H|].
    constructor; [|now apply IH].
    rewrite keys_assoc_set. apply String.eqb_neq in E. intuition congruence.
Qed.

Lemma NoDup_own_set (d : Diagnostics) (k : string) (m : Metric) :
  NoDup (map fst (own d)) -> NoDup (map fst (own (set d k m))).
Proof.
  unfold set. destruct (String.eqb k "__proto__"); simpl;
    [trivial | apply NoDup_assoc_set].
Qed.

Lemma NoDup_own_fold (lines : list string) (d : Diagnostics) :
  NoDup (map fst (own d)) ->
  NoDup (map fst (own (fold_left parseLine lines d))).
Proof.
  revert d. induction lines as [|l ls IH]; intros d H; simpl; [exact H|].
  apply IH. rewrite parseLine_key_value.
  destruct (key_value l) as [[k v]|]; [now apply NoDup_own_set | exact H].
Qed.

Lemma mem_In (k : string) (l : list string) : mem k l = true <-> In k l.
Proof.
  unfold mem. rewrite existsb_exists. split.
  - intros (x & Hx & E). apply String.eqb_eq in E. now subst.
  - intros H. exists k. split; [exact H | apply String.eqb_refl].
Qed.

(** The visited keys are the own keys and, under an installed
    prototype, its two field names when no own key hides them. *)
Lemma for_in_spec (d : Diagnostics) (k : string) :
  In k (for_in d)
  <-> In k (map fst (own d))
      \/ (proto d <> None /\ (k = "value" \/ k = "unit")
          /\ ~ In k (map fst (own d))).
Proof.
  unfold for_in.
  pose proof (own_keys_perm (map fst (own d))) as P.
  destruct (own_keys (map fst (own d))) as [idx str]. simpl in P.
  rewrite app_assoc, in_app_iff.
  assert (Hown : In k (map snd idx ++ str)%list <-> In k (map fst (own d))).
  { split; apply Permutation_in; [exact P | now apply Permutation_sym]. }
  rewrite Hown.
  destruct (proto d) as [p|].
  - rewrite filter_In, negb_true_iff.
    assert (Hm : mem k (map fst (own d)) = false <-> ~ In k (map fst (own d))).
    { rewrite <- mem_In. destruct (mem k (map fst (own d))); intuition congruence. }
    rewrite Hm. simpl. intuition (try congruence; auto).
  - simpl. intuition congruence.
Qed.

Lemma NoDup_for_in (d : Diagnostics) :
  NoDup (map fst (own d)) -> NoDup (for_in d).
Proof.
  intros H. unfold for_in.
  pose proof (own_keys_perm (map fst (own d))) as P.
  destruct (own_keys (map fst (own d))) as [idx str]. simpl in P.
  rewrite app_assoc. apply NoDup_app.
  - apply Permutation_NoDup with (map fst (own d)); [now apply Permutation_sym | exact H].
  - destruct (proto d); [|constructor].
    apply NoDup_filter. repeat constructor; simpl; intuition discriminate.
  - intros x Hx Hy. destruct (proto d); [|contradiction].
    apply filter_In in Hy as [_ Hy]. apply negb_true_iff in Hy.
    apply (Permutation_in _ P), mem_In in Hx. congruence.
Qed.

(** ** The text of [toFixed(2)] *)

Lemma all_digits_app (a b : string) :
  all_digits (a ++ b) = all_digits a && all_digits b.
Proof.
  induction a as [|x a IH]; simpl; [reflexivity|].
  now rewrite IH, andb_assoc.
Qed.

Lemma all_digits_repeat0 (n : nat) : all_digits (repeat0 n) = true.
Proof. induction n as [|n IH]; simpl; [reflexivity | exact IH]. Qed.

Lemma str_length_app (a b : string) : length (a ++ b) = (length a + length b)%nat.
Proof. induction a as [|x a IH]; simpl; [reflexivity | now rewrite IH]. Qed.

Lemma length_repeat0 (n : nat) : length (repeat0 n) = n.
Proof. induction n as [|n IH]; simpl; [reflexivity | now rewrite IH]. Qed.

Lemma all_digits_uint (d : Decimal.uint) :
  all_digits (NilEmpty.string_of_uint d) = true.
Proof. induction d; simpl; trivial. Qed.

Lemma all_digits_dec (z : Z) : all_digits (dec z) = true.
Proof.
  unfold dec, NilZero.string_of_uint.
  destruct (N.to_uint (Z.to_N z)) eqn:E; try reflexivity;
    rewrite <- E; apply all_digits_uint.
Qed.

Lemma length_dec (z : Z) : (1 <= length (dec z))%nat.
Proof.
  unfold dec, NilZero.string_of_uint.
  destruct (N.to_uint (Z.to_N z)); simpl; lia.
Qed.

Lemma take_drop_digits (k : nat) (m : string) :
  all_digits m = true -> length m = (k + 2)%nat ->
  all_digits (take k m) = true
  /\ length (take k m) = k
  /\ exists d1 d2, drop k m = String d1 (String d2 "")
                   /\ is_digit d1 = true /\ is_digit d2 = true.
Proof.
  revert m. induction k as [|k IH]; intros m D L.
  - destruct m as [|d1 [|d2 [|d3 m]]]; try discriminate.
    simpl in D. apply andb_true_iff in D as [D1 D2].
    apply andb_true_iff in D2 as [D2 _].
    repeat split. now exists d1, d2.
  - destruct m as [|x m]; [discriminate|].
    simpl in D, L. apply andb_true_iff in D as [Dx D]. injection L as L.
    destruct (IH m D L) as (T & Len & R).
    cbn [take drop all_digits length]. rewrite Dx, T, Len. auto.
Qed.

Lemma fixed2_digits_shape (n : Z) :
  exists ip d1 d2,
    fixed2_digits n = ip ++ "." ++ String d1 (String d2 "")
    /\ ip <> "" /\ all_digits ip = true
    /\ is_digit d1 = true /\ is_digit d2 = true.
Proof.
  unfold fixed2_digits.
  set (m0 := dec n).
  set (m := if (length m0 <=? 2)%nat then repeat0 (3 - length m0) ++ m0 else m0).
  assert (D : all_digits m = true).
  { subst m. destruct (length m0 <=? 2)%nat.
    - rewrite all_digits_app, all_digits_repeat0. apply all_digits_dec.
    - apply all_digits_dec. }
  assert (L : (3 <= length m)%nat).
  { subst m. pose proof (length_dec n) as Hm0. fold m0 in Hm0.
    destruct (length m0 <=? 2)%nat eqn:E.
    - apply Nat.leb_le in E. rewrite str_length_app, length_repeat0. lia.
    - apply Nat.leb_gt in E. lia. }
  destruct (@take_drop_digits (length m - 2) m D) as (T & Len & d1 & d2 & R & D1 & D2);
    [lia|].
  exists (take (length m - 2) m), d1, d2. rewrite R.
  repeat split; trivial.
  intros E. rewrite E in Len. simpl in Len. lia.
Qed.

(** Below 10^21 the text has two decimal places. *)
Lemma toFixed2_two_decimals (x : number) :
  below_1e21 x = true -> two_decimals (toFixed2 x).
Proof.
  unfold two_decimals.
  destruct x as [s|s| |s m e]; unfold below_1e21, toFixed2; intros H;
    try discriminate H.
  - destruct (fixed2_digits_shape 0) as (ip & d1 & d2 & E & R).
    exists "", ip, d1, d2. split; [exact E | auto].
  - destruct (ratio m e) as [num den].
    apply Z.ltb_lt in H.
    destruct (10 ^ 21 * den <=? num)%Z eqn:E; [apply Z.leb_le in E; lia|].
    match goal with |- context [fixed2_digits ?n] =>
      destruct (fixed2_digits_shape n) as (ip & d1 & d2 & -> & R) end.
    exists (if s then "-" else ""), ip, d1, d2.
    split; [reflexivity|]. split; [destruct s; auto | exact R].
Qed.
Lemma rev_onto_app (s acc : string) : rev_onto s acc = rev s ++ acc.
Proof.
  unfold rev. revert acc. induction s as [|c s IH]; intros acc; simpl.
  - reflexivity.
  - rewrite IH, (IH (String c "")), str_app_assoc. reflexivity.
Qed.

Lemma str_rev_app (a b : string) : rev (a ++ b) = rev b ++ rev a.
Proof.
  induction a as [|c a IH]; simpl.
  - now rewrite str_app_nil_r.
  - unfold rev in *. simpl.
    rewrite (rev_onto_app (a ++ b)), (rev_onto_app a).
    unfold rev. rewrite IH, str_app_assoc. reflexivity.
Qed.

Lemma str_rev_involutive (s : string) : rev (rev s) = s.
Proof.
  induction s as [|c s IH]; [reflexivity|].
  unfold rev at 2. simpl. rewrite rev_onto_app, str_rev_app, IH. reflexivity.
Qed.

(** [endsWith] finds exactly the suffixes. *)
Lemma endsWith_spec (s t : string) :
  endsWith s t = true <-> exists p, s = p ++ t.
Proof.
  unfold endsWith. split.
  - intros H. apply startsWith_inv in H as [r H].
    exists (rev r). rewrite <- (str_rev_involutive s), H, str_rev_app, str_rev_involutive.
    reflexivity.
  - intros [p ->]. rewrite str_rev_app. apply startsWith_app.
Qed.

Lemma str_count_app (c : ascii) (a b : string) :
  count c (a ++ b) = (count c a + count c b)%nat.
Proof.
  induction a as [|x a IH]; simpl; [reflexivity|]. rewrite IH. lia.
Qed.

Lemma replace_last (c : ascii) (p : string) :
  count c p = O -> replace (p ++ String c "") (String c "") "" = p.
Proof.
  induction p as [|a p IH]; intros H.
  - simpl. now rewrite Ascii.eqb_refl.
  - simpl in H. destruct (Ascii.eqb a c) eqn:E; [discriminate|].
    change (String a p ++ String c "") with (String a (p ++ String c "")).
    cbn [replace startsWith]. rewrite Ascii.eqb_sym, E. cbn [andb].
    now rewrite (IH H).
Qed.

Lemma take_app_length (p q : string) : take (length p) (p ++ q) = p.
Proof. induction p as [|a p IH]; simpl; [now destruct q | now rewrite IH]. Qed.

Lemma strip_last_app (c : ascii) (p : string) : strip_last (p ++ String c "") = p.
Proof.
  unfold strip_last. rewrite str_length_app. simpl.
  replace (length p + 1 - 1)%nat with (length p) by lia.
  apply take_app_length.
Qed.

(** When the unit letter occurs once, removing its first occurrence is
    stripping the suffix. *)
Lemma replace_strips_suffix (c : ascii) (v : string) :
  endsWith v (String c "") = true -> count c v = 1%nat ->
  replace v (String c "") "" = strip_last v.
Proof.
  intros E C. apply endsWith_spec in E as [p ->].
  rewrite str_count_app in C. simpl in C. rewrite Ascii.eqb_refl in C.
  rewrite strip_last_app. apply replace_last. lia.
Qed.

(** The code and the stated rule give the same metric for every value
    in which the unit letter occurs at most once. *)
Lemma parseValue_as_stated (v : string) :
  (count "s" v <= 1)%nat -> (count "K" v <= 1)%nat ->
  parseValue v = parseValue_stated v.
Proof.
  intros Cs Ck. unfold parseValue, parseValue_stated.
  destruct (endsWith v "s") eqn:Es.
  - rewrite replace_strips_suffix; trivial.
    apply endsWith_spec in Es as [p ->]. rewrite str_count_app in *. simpl in *. lia.
  - destruct (endsWith v "K") eqn:Ek; [|reflexivity].
    rewrite replace_strips_suffix; trivial.
    apply endsWith_spec in Ek as [p ->]. rewrite str_count_app in *. simpl in *. lia.
Qed.


(** ** Rows *)

Lemma rowText_rowOf (prevD curD : Diagnostics) (threshold : number) (key : string) :
  rowText prevD curD threshold key
  = rowOf key (cell (get prevD key)) (cell (get curD key))
          (symbol (rowStatus prevD curD threshold key))
          (percentText (rowPercentage prevD curD key)).
Proof.
  unfold rowText, renderRow, rowOf, cell, percentText.
  rewrite !str_app_assoc. reflexivity.
Qed.

Lemma row_rowOf (prevD curD : Diagnostics) (threshold : number) (key : string) :
  row prevD curD threshold key
  = Normal (rowOf key (cell (get prevD key)) (cell (get curD key))
                  (symbol (rowStatus prevD curD threshold key))
                  (percentText (rowPercentage prevD curD key))).
Proof. now rewrite row_eq, rowText_rowOf. Qed.

Lemma percentText_zero (s : bool) : percentText (S754_zero s) = "0.00".
Proof. destruct s; reflexivity. Qed.

Lemma statusOf_nan (key : string) (d threshold : number) :
  isNaN d = true -> statusOf key d threshold = Decreased.
Proof.
  destruct d; try discriminate. intros _.
  unfold statusOf, isWithinThreshold. cbn [abs SFabs].
  rewrite mul_nan_l, leb_nan_l, andb_false_r. reflexivity.
Qed.

Lemma diffPercentageOf_nan (cv : option number) (d : number) :
  isNaN d = true -> diffPercentageOf cv d = zero.
Proof.
  destruct d; try discriminate. intros _.
  unfold diffPercentageOf. destruct (not_zero cv); [|reflexivity].
  rewrite div_nan_l, mul_nan_l. reflexivity.
Qed.

Lemma diffOf_nan_current (pv : option number) : diffOf None pv = NaN.
Proof. reflexivity. Qed.

Lemma diffOf_nan_previous (cv : option number) : diffOf cv None = NaN.
Proof. unfold diffOf. apply sub_nan_r. Qed.

(** The percentage of a zero difference is a zero. *)
Lemma diffPercentageOf_zero (v : number) :
  isFinite v = true -> exists s, diffPercentageOf (Some v) zero = S754_zero s.
Proof.
  destruct v as [s|s| |s m e]; intros H; try discriminate.
  - exists false. destruct s; reflexivity.
  - exists (xorb (xorb false s) false).
    unfold diffPercentageOf. rewrite of_Z_100. destruct s; reflexivity.
Qed.

Lemma eqb_refl_number (x : number) : isNaN x = false -> eqb x x = true.
Proof.
  destruct x as [s|s| |s m e]; intros H; try discriminate;
    try (destruct s; reflexivity).
  unfold eqb, SFeqb, SFcompare.
  destruct s; rewrite Z.compare_refl, Pos.compare_cont_refl; reflexivity.
Qed.

Lemma isNaN_neg (x : number) : isNaN (neg x) = isNaN x.
Proof. destruct x; reflexivity. Qed.

Lemma isWithinThreshold_neg (d threshold : number) :
  isWithinThreshold (neg d) threshold = isWithinThreshold d threshold.
Proof. unfold isWithinThreshold. now rewrite abs_neg. Qed.

Lemma statusOf_neg (key : string) (d threshold : number) :
  isNaN d = false ->
  statusOf key (neg d) threshold = reflectStatus (statusOf key d threshold).
Proof.
  intros N. unfold statusOf.
  rewrite eqb_neg_zero, ltb_zero_neg, isWithinThreshold_neg.
  by_sign d; [rewrite E, ?P, ?M ..|congruence];
    try reflexivity;
    destruct (shouldApplyThreshold key && isWithinThreshold d threshold);
    reflexivity.
Qed.

Lemma statusOf_swap (key : string) (a b threshold : number) :
  isNaN (sub a b) = false ->
  eqb (sub b a) (neg (sub a b)) = true
  /\ statusOf key (sub b a) threshold = reflectStatus (statusOf key (sub a b) threshold).
Proof.
  intros N. destruct (sub_swap a b) as [E|[E1 E2]].
  - rewrite E. split.
    + apply eqb_refl_number. now rewrite isNaN_neg.
    + now apply statusOf_neg.
  - rewrite E1, E2. split; reflexivity.
Qed.


(** ** Own keys *)

Lemma assoc_keys (l : list (string * Metric)) (k : string) :
  In k (map fst l) <-> exists m, assoc l k = Some m.
Proof.
  induction l as [|[k0 m0] l IH]; simpl.
  - split; [intros [] | intros [m H]; discriminate].
  - destruct (String.eqb k0 k) eqn:E.
    + apply String.eqb_eq in E. split; [intros _; now exists m0 | now left].
    + apply String.eqb_neq in E. rewrite IH. split; [intros [H|H]; [congruence|exact H] | now right].
Qed.

Lemma proto_set (d : Diagnostics) (k : string) (m : Metric) :
  proto (set d k m) = if String.eqb k "__proto__" then Some m else proto d.
Proof. unfold set. destruct (String.eqb k "__proto__"); reflexivity. Qed.

(** A prototype is installed exactly by a line with the key
    [__proto__]. *)
Lemma proto_fold (lines : list string) (d : Diagnostics) :
  proto (fold_left parseLine lines d)
  = match last_value "__proto__" lines with
    | Some v => Some (parseValue v)
    | None => proto d
    end.
Proof.
  revert d. induction lines as [|l ls IH]; intros d; [reflexivity|].
  cbn [fold_left last_value]. rewrite IH.
  destruct (last_value "__proto__" ls); [reflexivity|].
  rewrite parseLine_key_value.
  destruct (key_value l) as [[k v]|]; [|reflexivity].
  rewrite proto_set. destruct (String.eqb k "__proto__"); reflexivity.
Qed.

Lemma own_key_entry (d : Diagnostics) (k : string) :
  wf d ->
  (In k (map fst (own d)) <-> k <> "__proto__" /\ exists m, entry d k = Some m).
Proof.
  intros W. rewrite assoc_keys. unfold entry, get. split.
  - intros [m H]. split.
    + intros ->. unfold wf in W. congruence.
    + exists m. now rewrite H.
  - intros [N [m H]]. destruct (assoc (own d) k) as [m'|]; [now exists m'|].
    apply String.eqb_neq in N. rewrite N in H.
    rewrite (inherited_entry (proto d) _ N) in H. discriminate.
Qed.

(** ** Values that hold no number *)














(* ================================================================== *)
(** * The claims of the specification *)

(** C1 (defect of the code).  A metric of the current snapshot that the
    previous snapshot lacks is not dropped, but the fallback [|| 0]
    yields the number 0, which has neither a [value] nor a [unit]
    field: in the worked example the difference for [Files] is not a
    number instead of 42 - 0, and the row shows [undefinedundefined] as
    the previous value, with status [▼] and 0.00%. *)
Theorem absent_previous_metric_row :
  let prevD := parseDiagnostics example_previous in
  let curD := parseDiagnostics example_current in
  get prevD "Files" = VUndefined
  /\ In "Files" (for_in curD)
  /\ rowDiff prevD curD "Files" = NaN
  /\ row prevD curD (of_Z 300) "Files"
     = Normal (rowOf "Files" "undefinedundefined" "42" "▼" "0.00").
Proof.
  cbv zeta. split; [|split; [|split]].
  - vm_compute. reflexivity.
  - vm_compute. tauto.
  - vm_compute. reflexivity.
  - vm_compute. reflexivity.
Qed.

(** C2, as stated, fails: the report of the worked example holds none
    of the three rows that the specification lists. *)
Lemma example_rows_counterexample :
  ~ (exists md,
        compareDiagnostics example_previous example_current (of_Z 300) = Normal md
        /\ includes md "Check time | 1.2s | 1.45s | ▲ (+17.24%)" = true
        /\ includes md "Memory used | 100K | 100K | ± (+0.00%)" = true
        /\ includes md "Files | 0 | 42 | ▲ (+100.00%)" = true).
Proof.
  intros (md & H & H1 & _).
  vm_compute in H. injection H as H. subst md.
  vm_compute in H1. discriminate H1.
Qed.

(** C2 (amended).  For the texts of the worked example and threshold
    300 the keys visited are [Check time], [Memory used] and [Files],
    and the report is the header, exactly three rows and the footer:
    the row of [Check time] with 1.2s, 1.45s and [± (+17.24%)] (250 ms
    lie within the threshold), the row of [Memory used] with 100K, 100K
    and [± (0.00%)], and the row of [Files], whose new value is 42 (its
    other cells are those of C1). *)
Theorem example_report :
  for_in (parseDiagnostics example_current) = ["Check time"; "Memory used"; "Files"]
  /\ compareDiagnostics example_previous example_current (of_Z 300)
     = Normal (header
               ++ rowOf "Check time" "1.2s" "1.45s" "±" "+17.24"
               ++ rowOf "Memory used" "100K" "100K" "±" "0.00"
               ++ rowOf "Files" "undefinedundefined" "42" "▼" "0.00"
               ++ footer).
Proof. split; vm_compute; reflexivity. Qed.

(** C3, as stated, fails: a value that is not a number makes the row of
    a text compared with itself a [▼] row. *)
Lemma self_comparison_counterexample :
  let d := parseDiagnostics "Files: n/a" in
  In "Files" (for_in d)
  /\ ~ (rowStatus d d (of_Z 300) "Files" = Unchanged
        /\ percentText (rowPercentage d d "Files") = "0.00").
Proof.
  cbv zeta. split.
  - vm_compute. tauto.
  - intros [H _]. vm_compute in H. discriminate H.
Qed.

(** C3 (amended).  For every text and every threshold, comparing the
    text with itself gives a report made of the header, one row per
    visited key and the footer, and every row whose metric value is a
    finite number has status [±] and percentage 0.00%. *)
Theorem self_comparison_unchanged (input : string) (threshold : number) :
  let d := parseDiagnostics input in
  compareDiagnostics input input threshold
  = Normal (header ++ rowTexts d d threshold (for_in d) ++ footer)
  /\ forall key m,
       get d key = VMetric m -> isFinite (value m) = true ->
       rowStatus d d threshold key = Unchanged
       /\ percentText (rowPercentage d d key) = "0.00"
       /\ rowText d d threshold key
          = rowOf key (cell (VMetric m)) (cell (VMetric m)) "±" "0.00".
Proof.
  cbv zeta. split; [apply compareDiagnostics_eq|].
  intros key m G F.
  assert (D : rowDiff (parseDiagnostics input) (parseDiagnostics input) key = zero).
  { unfold rowDiff, diffOf. rewrite G. simpl. now apply sub_self. }
  assert (S : rowStatus (parseDiagnostics input) (parseDiagnostics input)
                        threshold key = Unchanged).
  { unfold rowStatus. rewrite D. reflexivity. }
  assert (P : percentText (rowPercentage (parseDiagnostics input)
                                         (parseDiagnostics input) key) = "0.00").
  { unfold rowPercentage. rewrite D, G. simpl value_of.
    destruct (diffPercentageOf_zero _ F) as [s ->]. apply percentText_zero. }
  repeat split; trivial.
  rewrite rowText_rowOf, S, P, G. reflexivity.
Qed.

Lemma self_comparison_unchanged_witness :
  let d := parseDiagnostics "Memory used: 100K" in
  rowStatus d d (of_Z 300) "Memory used" = Unchanged
  /\ percentText (rowPercentage d d "Memory used") = "0.00"
  /\ rowText d d (of_Z 300) "Memory used"
     = rowOf "Memory used" "100K" "100K" "±" "0.00".
Proof.
  exact (proj2 (self_comparison_unchanged "Memory used: 100K" (of_Z 300))
               "Memory used" (mkMetric (of_Z 100) UKilo) eq_refl eq_refl).
Defined.

(** C4, as stated, fails at the boundary: with threshold 2007 and a
    difference of 2.007 seconds, which is 2007 / 1000, the product
    [abs(diff) * 1000] is rounded to 2007.0000000000002, above the
    threshold, and the row of a time metric is increased. *)
Lemma boundary_counterexample :
  let prevD := parseDiagnostics "Check time: 0s" in
  let curD := parseDiagnostics "Check time: 2.007s" in
  shouldApplyThreshold "Check time" = true
  /\ rowDiff prevD curD "Check time" = div (of_Z 2007) (of_Z 1000)
  /\ toString (mul (abs (rowDiff prevD curD "Check time")) (of_Z 1000))
     = "2007.0000000000002"
  /\ ~ (rowStatus prevD curD (of_Z 2007) "Check time" = Unchanged)
  /\ row prevD curD (of_Z 2007) "Check time"
     = Normal (rowOf "Check time" "0s" "2.007s" "▲" "+100.00").
Proof.
  cbv zeta. repeat split; try (vm_compute; reflexivity).
  vm_compute. discriminate.
Qed.

(** C4 (amended).  The status of a row is [statusOf] of its key, its
    difference and the threshold.  A zero difference is unchanged.  For
    a name that holds "time" in any case, a non-zero difference is
    unchanged exactly when [abs(diff) * 1000 <= threshold], where the
    product is the rounded product of the code; the boundary is
    inclusive on that product: a product equal to the threshold is
    unchanged.  Otherwise the status is increased above zero and
    decreased below.  For any other name the status is unchanged only
    for a zero difference, whatever the threshold. *)
Theorem status_rule (key : string) (diff threshold : number) :
  (forall prevD curD,
      row prevD curD threshold key
      = Normal (rowOf key (cell (get prevD key)) (cell (get curD key))
                      (symbol (statusOf key (rowDiff prevD curD key) threshold))
                      (percentText (rowPercentage prevD curD key))))
  /\ (shouldApplyThreshold key = true
      <-> exists a w b, key = a ++ w ++ b /\ toLowerCase w = "time")
  /\ (eqb diff zero = true -> statusOf key diff threshold = Unchanged)
  /\ (shouldApplyThreshold key = true -> eqb diff zero = false ->
      (statusOf key diff threshold = Unchanged
       <-> leb (mul (abs diff) (of_Z 1000)) threshold = true)
      /\ (eqb (mul (abs diff) (of_Z 1000)) threshold = true ->
          statusOf key diff threshold = Unchanged)
      /\ (leb (mul (abs diff) (of_Z 1000)) threshold = false ->
          (ltb zero diff = true -> statusOf key diff threshold = Increased)
          /\ (ltb diff zero = true -> statusOf key diff threshold = Decreased)))
  /\ (shouldApplyThreshold key = false ->
      (statusOf key diff threshold = Unchanged <-> eqb diff zero = true)
      /\ (ltb zero diff = true -> statusOf key diff threshold = Increased)
      /\ (ltb diff zero = true -> statusOf key diff threshold = Decreased)).
Proof.
  split; [intros; apply row_rowOf|].
  split; [apply shouldApplyThreshold_iff|].
  unfold statusOf, isWithinThreshold.
  split; [intros ->; reflexivity|].
  split.
  - intros -> ->. cbn [andb].
    destruct (leb (mul (abs diff) (of_Z 1000)) threshold) eqn:W.
    + repeat split; try reflexivity; discriminate.
    + split; [|split].
      * destruct (ltb zero diff); split; discriminate.
      * intros E. apply eqb_leb in E. congruence.
      * intros _. by_sign diff; rewrite P, M; split; congruence.
  - intros ->. cbn [andb].
    by_sign diff; rewrite E, ?P, ?M; repeat split; congruence.
Qed.

Lemma status_rule_witness :
  statusOf "Check time" (sub (parseFloat "0.3") (parseFloat "0")) (of_Z 300)
  = Unchanged.
Proof.
  apply (proj1 (proj2 (proj1 (proj2 (proj2 (proj2
          (status_rule "Check time" (sub (parseFloat "0.3") (parseFloat "0"))
                       (of_Z 300)))))
          eq_refl eq_refl))).
  reflexivity.
Defined.

(** C5 (defect of the code).  [value.replace('s', '')] removes the
    first [s] of the value, not the suffix that [endsWith] has found:
    for the value [s1s] the text parsed is [1s], which gives 1 second,
    while the value without its suffix, [s1], is not a number.  The
    same holds for [K].  ([parseValue_as_stated]: the two agree when the
    unit letter occurs once.) *)
Theorem replace_removes_first_occurrence :
  parseValue "s1s" = mkMetric (of_Z 1) USeconds
  /\ parseValue_stated "s1s" = mkMetric NaN USeconds
  /\ entry (parseDiagnostics "Total time: s1s") "Total time"
     = Some (mkMetric (of_Z 1) USeconds)
  /\ parseValue "K5K" = mkMetric (of_Z 5) UKilo
  /\ parseValue_stated "K5K" = mkMetric NaN UKilo.
Proof. repeat split; vm_compute; reflexivity. Qed.






(** C7, as stated, fails: when the difference is not a number both
    directions give [▼], so a decrease does not become an increase. *)
Lemma swap_counterexample :
  let a := parseDiagnostics "Files: n/a" in
  let b := parseDiagnostics "Files: 42" in
  ~ (rowStatus a b (of_Z 300) "Files" = Increased
     <-> rowStatus b a (of_Z 300) "Files" = Decreased).
Proof.
  cbv zeta. intros [_ H].
  assert (E : rowStatus (parseDiagnostics "Files: 42") (parseDiagnostics "Files: n/a")
                        (of_Z 300) "Files" = Decreased) by (vm_compute; reflexivity).
  specialize (H E). vm_compute in H. discriminate H.
Qed.

(** C7 (amended).  For every pair of snapshots, every threshold and
    every key whose difference is a number, swapping previous and
    current negates the difference and mirrors the status: increased
    becomes decreased, decreased becomes increased, unchanged stays. *)
Theorem swap_reflects_status (a b : Diagnostics) (threshold : number) (key : string) :
  isNaN (rowDiff a b key) = false ->
  eqb (rowDiff b a key) (neg (rowDiff a b key)) = true
  /\ rowStatus b a threshold key = reflectStatus (rowStatus a b threshold key)
  /\ row b a threshold key
     = Normal (rowOf key (cell (get b key)) (cell (get a key))
                     (symbol (reflectStatus (rowStatus a b threshold key)))
                     (percentText (rowPercentage b a key))).
Proof.
  intros N.
  assert (H : eqb (rowDiff b a key) (neg (rowDiff a b key)) = true
              /\ rowStatus b a threshold key
                 = reflectStatus (rowStatus a b threshold key)).
  { unfold rowStatus, rowDiff, diffOf in *. now apply statusOf_swap. }
  destruct H as [H1 H2]. repeat split; trivial.
  now rewrite row_rowOf, H2.
Qed.

Lemma swap_reflects_status_witness :
  let a := parseDiagnostics "Files: 40" in
  let b := parseDiagnostics "Files: 42" in
  eqb (rowDiff b a "Files") (neg (rowDiff a b "Files")) = true
  /\ rowStatus b a (of_Z 300) "Files"
     = reflectStatus (rowStatus a b (of_Z 300) "Files")
  /\ row b a (of_Z 300) "Files"
     = Normal (rowOf "Files" (cell (get b "Files")) (cell (get a "Files"))
                     (symbol (reflectStatus (rowStatus a b (of_Z 300) "Files")))
                     (percentText (rowPercentage b a "Files"))).
Proof.
  exact (swap_reflects_status (parseDiagnostics "Files: 40")
                              (parseDiagnostics "Files: 42") (of_Z 300) "Files"
                              eq_refl).
Defined.

(** C8.  After [parseDiagnostics] no key is stored twice and no key is
    visited twice, and the metric read under a key is the one parsed
    from the last line, among those with exactly one colon, whose
    trimmed key it is. *)
Theorem last_line_wins (input : string) :
  NoDup (map fst (own (parseDiagnostics input)))
  /\ NoDup (for_in (parseDiagnostics input))
  /\ forall key v,
       last_value key (lines_of input) = Some v ->
       get (parseDiagnostics input) key = VMetric (parseValue v).
Proof.
  assert (N : NoDup (map fst (own (parseDiagnostics input)))).
  { apply NoDup_own_fold. constructor. }
  split; [exact N|]. split; [now apply NoDup_for_in|].
  intros key v L. apply entry_get.
  now rewrite entry_parseDiagnostics, L.
Qed.

Lemma last_line_wins_witness :
  get (parseDiagnostics ("Files: 1" ++ nl ++ "Types: 7" ++ nl ++ "Files: 2")) "Files"
  = VMetric (parseValue "2").
Proof.
  exact (proj2 (proj2 (last_line_wins
          ("Files: 1" ++ nl ++ "Types: 7" ++ nl ++ "Files: 2"))) "Files" "2" eq_refl).
Defined.

Lemma not_two_decimals_without_point (s : string) :
  includes s "." = false -> ~ two_decimals s.
Proof.
  intros H (sg & ip & d1 & d2 & E & _).
  assert (I : includes s "." = true).
  { apply includes_spec. exists (sg ++ ip), (String d1 (String d2 "")).
    rewrite E, str_app_assoc. reflexivity. }
  congruence.
Qed.

(** C9, as stated, fails: a percentage that is infinite (or at least
    10^21) is not printed with two decimal places. *)
Lemma percentage_text_counterexample :
  let prevD := parseDiagnostics "Check time: 1e300s" in
  let curD := parseDiagnostics "Check time: 1e-300s" in
  rowText prevD curD (of_Z 300) "Check time"
  = rowOf "Check time" "1e+300s" "1e-300s" "▼" "-Infinity"
  /\ ~ two_decimals (toFixed2 (rowPercentage prevD curD "Check time")).
Proof.
  cbv zeta. split; [vm_compute; reflexivity|].
  apply not_two_decimals_without_point. vm_compute. reflexivity.
Qed.

(** C9 (amended).  Every report starts with the title line
    [## Diagnostics Comparison:].  Every row shows the status symbol
    ([±], [▲] or [▼]) followed by the percentage in brackets, with a
    [+] exactly when the percentage is above zero; the percentage has
    two decimal places whenever it is finite and below 10^21 in
    magnitude.  The report is a function of the two texts and the
    threshold. *)
Theorem report_format (prev current : string) (threshold : number) :
  (exists md rest,
      compareDiagnostics prev current threshold = Normal md
      /\ md = "## Diagnostics Comparison:" ++ nl ++ rest
      /\ includes md "Diagnostics Comparison" = true)
  /\ (symbol Unchanged = "±" /\ symbol Increased = "▲" /\ symbol Decreased = "▼")
  /\ (forall prevD curD key,
        row prevD curD threshold key
        = Normal (rowOf key (cell (get prevD key)) (cell (get curD key))
                        (symbol (rowStatus prevD curD threshold key))
                        (percentText (rowPercentage prevD curD key))))
  /\ (forall p, percentText p = (if ltb zero p then "+" else "") ++ toFixed2 p)
  /\ (forall p, below_1e21 p = true -> two_decimals (toFixed2 p))
  /\ (forall md md',
        compareDiagnostics prev current threshold = Normal md ->
        compareDiagnostics prev current threshold = Normal md' -> md = md').
Proof.
  split; [|split; [|split; [|split; [|split]]]].
  - rewrite compareDiagnostics_eq. unfold header.
    rewrite !str_app_assoc. eexists. eexists.
    split; [reflexivity|]. split; [reflexivity|].
    apply includes_spec. exists "## ". eexists. reflexivity.
  - repeat split.
  - intros. apply row_rowOf.
  - reflexivity.
  - apply toFixed2_two_decimals.
  - intros md md' H H'. congruence.
Qed.

Lemma report_format_witness :
  two_decimals
    (toFixed2 (rowPercentage (parseDiagnostics example_previous)
                             (parseDiagnostics example_current) "Check time")).
Proof.
  exact (proj1 (proj2 (proj2 (proj2 (proj2
          (report_format example_previous example_current (of_Z 300))))))
          (rowPercentage (parseDiagnostics example_previous)
                         (parseDiagnostics example_current) "Check time")
          eq_refl).
Defined.

(** C10.  The difference of a row is not a number when the current
    value is not a number, when the previous value is not a number, or
    when the previous snapshot has no property of that name; and
    whenever the difference is not a number the row shows [▼] with the
    percentage 0.00, for every threshold, never [±]. *)
Theorem nan_delta_row (prevD curD : Diagnostics) (threshold : number) (key : string) :
  ((exists m, get curD key = VMetric m /\ isNaN (value m) = true)
   \/ (exists m, get prevD key = VMetric m /\ isNaN (value m) = true)
   \/ get prevD key = VUndefined ->
   isNaN (rowDiff prevD curD key) = true)
  /\ (isNaN (rowDiff prevD curD key) = true ->
      rowStatus prevD curD threshold key = Decreased
      /\ row prevD curD threshold key
         = Normal (rowOf key (cell (get prevD key)) (cell (get curD key))
                         "▼" "0.00")).
Proof.
  split.
  - unfold rowDiff, diffOf.
    intros [(m & -> & N) | [(m & -> & N) | -> ]]; simpl.
    + destruct (value m); try discriminate. reflexivity.
    + destruct (value m); try discriminate. now rewrite sub_nan_r.
    + now rewrite sub_nan_r.
  - intros N.
    assert (S : rowStatus prevD curD threshold key = Decreased)
      by now apply statusOf_nan.
    split; [exact S|].
    rewrite row_rowOf, S. unfold rowPercentage.
    now rewrite (diffPercentageOf_nan _ _ N).
Qed.

Lemma nan_delta_row_witness :
  let d := parseDiagnostics "Files: n/a" in
  rowStatus d d (of_Z 300) "Files" = Decreased
  /\ row d d (of_Z 300) "Files"
     = Normal (rowOf "Files" (cell (get d "Files")) (cell (get d "Files")) "▼" "0.00").
Proof.
  exact (proj2 (nan_delta_row (parseDiagnostics "Files: n/a")
                              (parseDiagnostics "Files: n/a") (of_Z 300) "Files")
               eq_refl).
Defined.

(* ================================================================== *)
(** * Further properties *)

Lemma own_keys_no_index (l : list string) :
  (forall k, In k l -> array_index k = None) -> own_keys l = ([], l).
Proof.
  induction l as [|k l IH]; intros H; [reflexivity|].
  cbn [own_keys]. rewrite IH by (intros k' Hk'; apply H; now right).
  now rewrite (H k (or_introl eq_refl)).
Qed.

(** X1.  The code and the stated rule of C5 give the same metric for
    every trimmed value in which the letters s and K occur at most
    once. *)
Theorem parseValue_follows_stated_rule (v : string) :
  (count "s" v <= 1)%nat -> (count "K" v <= 1)%nat ->
  parseValue v = parseValue_stated v.
Proof. apply parseValue_as_stated. Qed.

Lemma parseValue_follows_stated_rule_witness :
  parseValue "1.200s" = parseValue_stated "1.200s".
Proof.
  apply (parseValue_follows_stated_rule "1.200s"); vm_compute; lia.
Defined.

(** X2.  [compareDiagnostics] never throws; its report is the header,
    one row for each key that [for ... in] visits on the current
    snapshot, in that order, and the footer.  When no own key is an
    array index and no prototype was installed, these keys are the own
    keys in creation order. *)
Theorem report_rows_follow_for_in (prev current : string) (threshold : number) :
  compareDiagnostics prev current threshold
  = Normal (header
            ++ rowTexts (parseDiagnostics prev) (parseDiagnostics current) threshold
                        (for_in (parseDiagnostics current))
            ++ footer)
  /\ (proto (parseDiagnostics current) = None ->
      (forall k, In k (map fst (own (parseDiagnostics current))) ->
                 array_index k = None) ->
      for_in (parseDiagnostics current) = map fst (own (parseDiagnostics current))).
Proof.
  split; [apply compareDiagnostics_eq|].
  intros P H. unfold for_in.
  rewrite (own_keys_no_index _ H), P. simpl. now rewrite app_nil_r.
Qed.

Lemma report_rows_follow_for_in_witness :
  for_in (parseDiagnostics example_current)
  = map fst (own (parseDiagnostics example_current)).
Proof.
  apply (proj2 (report_rows_follow_for_in example_previous example_current
                                          (of_Z 300))).
  - reflexivity.
  - intros k H. vm_compute in H.
    destruct H as [<-|[<-|[<-|[]]]]; reflexivity.
Defined.

(* ================================================================== *)
(** * The action: [run] and [leaveComment] *)

Lemma raisedBy_event_of_call (X : Type) (c : Call X) (o : Outcome X) :
  raisedBy (event_of_call c o) = thrown_of o.
Proof. destruct c; reflexivity. Qed.

Lemma raisedBy_event_of_output (o : Output) : raisedBy (event_of_output o) = None.
Proof. destruct o; reflexivity. Qed.

(** Sequencing: the second program runs in the world the first one
    left, unless the first one threw. *)
Lemma interp_bindP (w : World) (A B : Type) (p : Prog A) (f : A -> Prog B)
      (s : state w) :
  interp w (bindP p f) s
  = match outcome (interp w p s) with
    | Returned a =>
        let r2 := interp w (f a) (final (interp w p s)) in
        mkRun (trace (interp w p s) ++ trace r2) (outcome r2) (final r2)
    | Raised t => mkRun (trace (interp w p s)) (Raised t) (final (interp w p s))
    end.
Proof.
  revert s. induction p as [a|t|o next IH|X c k IH]; intros s; cbn [bindP interp].
  - cbn. now destruct (interp w (f a) s).
  - reflexivity.
  - rewrite IH. cbn. destruct (outcome (interp w next s)); reflexivity.
  - destruct (handle w c s) as [o s']. rewrite IH. cbn.
    destruct (outcome (interp w (k o) s')); reflexivity.
Qed.

Lemma interp_catchP (w : World) (A : Type) (p : Prog A) (h : Thrown -> Prog A)
      (s : state w) :
  interp w (catchP p h) s
  = match outcome (interp w p s) with
    | Returned a => interp w p s
    | Raised t =>
        let r2 := interp w (h t) (final (interp w p s)) in
        mkRun (trace (interp w p s) ++ trace r2) (outcome r2) (final r2)
    end.
Proof.
  revert s. induction p as [a|t|o next IH|X c k IH]; intros s; cbn [catchP interp].
  - reflexivity.
  - cbn. now destruct (interp w (h t) s).
  - rewrite IH. cbn. destruct (outcome (interp w next s)); reflexivity.
  - destruct (handle w c s) as [o s']. rewrite IH. cbn.
    destruct (outcome (interp w (k o) s')); reflexivity.
Qed.

Lemma propagates_call (X : Type) (c : Call X) : propagates (call c).
Proof. split; [reflexivity | intros x; exact I]. Qed.

Lemma propagates_bindP (A B : Type) (p : Prog A) (f : A -> Prog B) :
  propagates p -> (forall a, propagates (f a)) -> propagates (bindP p f).
Proof.
  intros Hp Hf. induction p as [a|t|o next IH|X c k IH]; cbn [bindP propagates] in *.
  - apply Hf.
  - exact I.
  - now apply IH.
  - destruct Hp as [Hr Hx]. split.
    + intros t. now rewrite Hr.
    + intros x. now apply IH.
Qed.

(** In a program that rethrows, a call that throws is the last event,
    and the program ends with the thrown value. *)
Lemma propagates_last (w : World) (A : Type) (p : Prog A) (s : state w)
      (e : Event) (t : Thrown) :
  propagates p -> In e (trace (interp w p s)) -> raisedBy e = Some t ->
  outcome (interp w p s) = Raised t
  /\ exists earlier, List.rev (trace (interp w p s)) = e :: earlier.
Proof.
  revert s. induction p as [a|t'|o next IH|X c k IH]; intros s Hp Hin Hr;
    cbn [interp propagates] in *.
  - destruct Hin.
  - destruct Hin.
  - cbn [emit trace outcome] in *. destruct Hin as [<-|Hin].
    + rewrite raisedBy_event_of_output in Hr. discriminate.
    + destruct (IH s Hp Hin Hr) as [Ho [earlier He]]. split; [exact Ho|].
      exists (earlier ++ [event_of_output o])%list. cbn [List.rev]. now rewrite He.
  - destruct Hp as [Hraise Hx]. destruct (handle w c s) as [[x|t'] s'].
    + cbn [emit trace outcome] in *. destruct Hin as [<-|Hin].
      * rewrite raisedBy_event_of_call in Hr. discriminate.
      * destruct (IH _ s' (Hx x) Hin Hr) as [Ho [earlier He]]. split; [exact Ho|].
        exists (earlier ++ [event_of_call c (Returned x)])%list.
        cbn [List.rev]. now rewrite He.
    + rewrite Hraise in *. cbn [interp emit trace outcome] in *.
      destruct Hin as [<-|[]]. rewrite raisedBy_event_of_call in Hr.
      injection Hr as <-. split; [reflexivity|]. now exists [].
Qed.

Lemma propagates_leaveComment (text token : string) (ctx : Context) :
  propagates (leaveComment text token ctx).
Proof.
  unfold leaveComment, getCurrentRepoMetadata, getCurrentPRID.
  repeat first
    [ exact I
    | match goal with
      | |- propagates (call _) => apply propagates_call
      | |- propagates (bindP _ _) => apply propagates_bindP; [|intros]
      | |- propagates (match ?x with _ => _ end) => destruct x
      end ].
Qed.

Lemma propagates_runBody (getInput : string -> string) (ctx : Context) :
  propagates (runBody getInput ctx).
Proof.
  unfold runBody, installDependencies.
  repeat first
    [ exact I
    | match goal with
      | |- propagates (call _) => apply propagates_call
      | |- propagates (leaveComment _ _ _) => apply propagates_leaveComment
      | |- propagates (bindP _ _) => apply propagates_bindP; [|intros]
      | |- propagates (Out _ _) => cbn [propagates]
      | |- propagates (match ?x with _ => _ end) => destruct x
      end ].
Qed.

(** X3.  [run] always resolves.  When a call to the outside throws an
    [Error], nothing else is attempted and the run ends with
    [core.setFailed] of its message; when it throws a value that is not
    an [Error], the run ends there and reports nothing. *)
Theorem run_reports_errors (getInput : string -> string) (ctx : Context)
        (w : World) (s : state w) :
  let r := interp w (run getInput ctx) s in
  outcome r = Returned tt
  /\ (forall e m, In e (trace r) -> raisedBy e = Some (ErrorObject m) ->
        exists earlier, List.rev (trace r) = ESetFailed m :: e :: earlier)
  /\ (forall e, In e (trace r) -> raisedBy e = Some NotAnError ->
        exists earlier, List.rev (trace r) = e :: earlier).
Proof.
  cbv zeta. unfold run. cbn [interp event_of_output].
  rewrite interp_catchP.
  pose proof (propagates_runBody getInput ctx) as P.
  set (rb := interp w (runBody getInput ctx) s) in *.
  assert (L : forall e t, In e (trace rb) -> raisedBy e = Some t ->
                outcome rb = Raised t
                /\ exists earlier, List.rev (trace rb) = e :: earlier).
  { intros e t. subst rb. now apply propagates_last. }
  destruct (outcome rb) as [[]|t] eqn:O.
  - cbn [emit outcome trace]. split; [exact O|].
    split; intros e; intros;
      match goal with H : In _ (_ :: _) |- _ => destruct H as [<-|H] end;
      try discriminate;
      match goal with
      | H : In _ _, R : raisedBy _ = Some _ |- _ => destruct (L _ _ H R); discriminate
      end.
  - assert (T : forall e t', In e (trace rb) -> raisedBy e = Some t' ->
                  t' = t /\ exists earlier, List.rev (trace rb) = e :: earlier).
    { intros e t' H R. destruct (L _ _ H R) as [E X]. split; [congruence | exact X]. }
    destruct t as [m'|]; cbn [interp emit trace outcome final event_of_output].
    + split; [reflexivity|].
      split; intros e; intros;
        match goal with H : In _ (_ :: _) |- _ => destruct H as [<-|H] end;
        try discriminate;
        match goal with H : In _ (_ ++ _)%list |- _ =>
          apply in_app_or in H; destruct H as [H|[<-|[]]] end;
        try discriminate;
        match goal with
        | H : In _ _, R : raisedBy _ = Some _ |- _ =>
            destruct (T _ _ H R) as [E [earlier X]]; try discriminate
        end.
      injection E as <-.
      exists (earlier ++ [EInfo "Starting..."])%list.
      cbn [List.rev]. rewrite rev_app_distr. cbn [List.rev app]. now rewrite X.
    + split; [reflexivity|].
      split; intros e; intros;
        match goal with H : In _ (_ :: _) |- _ => destruct H as [<-|H] end;
        try discriminate;
        rewrite app_nil_r in *;
        match goal with
        | H : In _ _, R : raisedBy _ = Some _ |- _ =>
            destruct (T _ _ H R) as [E [earlier X]]; try discriminate
        end.
      exists (earlier ++ [EInfo "Starting..."])%list.
      cbn [List.rev]. now rewrite X.
Qed.

Ltac run_cbn :=
  cbn [interp catchP bindP call emit trace outcome final event_of_call
       event_of_output List.rev app name owner_login].

(** One step of symbolic execution: the next call or test is split into
    its cases. *)
Ltac run_step :=
  cbn [interp catchP bindP call emit trace outcome final event_of_call
       event_of_output List.rev app];
  try rewrite compareDiagnostics_eq;
  match goal with
  | |- context [handle ?w ?c ?s] =>
      let o := fresh "o" in let s' := fresh "s" in
      destruct (handle w c s) as [[o|[o|]] s']
  | |- context [match context_repo ?c with _ => _ end] =>
      let o := fresh "o" in
      destruct (context_repo c) as [[? ?]|[o|]] eqn:?
  | |- context [match pull_request ?c with _ => _ end] =>
      destruct (pull_request c) eqn:?
  | |- context [match findReport ?c with _ => _ end] =>
      destruct (findReport c) eqn:?
  | |- context [match string_or_undefined ?c with _ => _ end] =>
      destruct (string_or_undefined c) eqn:?
  | |- context [if ?b then _ else _] => destruct b eqn:?
  end.

Ltac run_all :=
  unfold run, runBody, installDependencies, leaveComment,
    getCurrentRepoMetadata, getCurrentPRID;
  repeat run_step;
  run_cbn; try rewrite compareDiagnostics_eq; run_cbn;
  repeat match goal with u : Datatypes.unit |- _ => destruct u end.

Lemma report_not_finished (x : string) : header ++ x <> "Finished!".
Proof. unfold header. simpl. discriminate. Qed.

(** X4.  A run that ends with [Finished!] has done, in this order: the
    start message, [yarn bin], the diagnostics command on the checked
    out change, the fetch and the checkout of the base branch, the
    package manager probe, the installation with yarn, npm or pnpm, the
    same command again, and the output of the report that
    [compareDiagnostics] gives for the second output as previous text
    and the first as current text; every call returned, and only calls
    of [leaveComment] follow the report. *)
Theorem run_success_trace (getInput : string -> string) (ctx : Context)
        (w : World) (s : state w) (earlier : list Event) :
  List.rev (trace (interp w (run getInput ctx) s)) = EInfo "Finished!" :: earlier ->
  SuccessTrace getInput (trace (interp w (run getInput ctx) s)).
Proof.
  unfold SuccessTrace. run_all.
  all: intros H; cbn [List.rev app] in H.
  all: try discriminate H.
  all: try (injection H as H _; apply report_not_finished in H; destruct H).
  all: repeat match goal with
              | E : String.eqb _ _ = true |- _ => apply String.eqb_eq in E
              end; subst.
  all: match goal with
       | |- context [EDetect (Returned ?pm)] => do 2 eexists; exists pm
       end;
    do 3 eexists;
    first [ exists (@nil Event); cbv zeta; split; [cbn [app]; reflexivity|]
          | eexists [_; _; _; _]; cbv zeta; split; [cbn [app]; reflexivity|] ].
  all: (split; [apply compareDiagnostics_eq|]).
  all: (split; [cbn; tauto|]).
  all: repeat constructor.
Qed.

Lemma run_success_trace_witness :
  SuccessTrace sampleInputs
               (trace (interp (sampleWorld []) (run sampleInputs sampleContext) O)).
Proof.
  apply (run_success_trace sampleInputs sampleContext (sampleWorld []) O
           (earlier := List.tl (List.rev (trace (interp (sampleWorld [])
                                   (run sampleInputs sampleContext) O))))).
  vm_compute. reflexivity.
Defined.

(** X5.  The marker check applies to a custom command only: when its
    output on the checked out change lacks [Check time], the run stops
    there with the failure message and touches neither git nor the
    dependencies; with the default command, or with the marker present,
    the run goes on to fetch the base branch. *)
Theorem custom_command_is_checked (getInput : string -> string) (ctx : Context)
        (w : World) (s : state w) (binOutput newResult : ExecOutput)
        (command : string) (rest : list Event) :
  trace (interp w (run getInput ctx) s)
  = EInfo "Starting..." :: EGetExecOutput "yarn bin" (Returned binOutput)
    :: EGetExecOutput command (Returned newResult) :: rest ->
  (getInput "custom-command" <> "" ->
   includes (stdout newResult) "Check time" = false ->
   command = getInput "custom-command"
   /\ rest = [ESetFailed ("Custom command '" ++ command
                          ++ "' does not output '--extendedDiagnostics' or '--diagnostics' flag. Please add it to your command.")])
  /\ (getInput "custom-command" = ""
      \/ includes (stdout newResult) "Check time" = true ->
      exists r rest',
        rest = EGitFetch (string_or_undefined (getInput "github-token"))
                         (string_or (getInput "base-branch") "main") r :: rest').
Proof.
  unfold run, runBody. run_cbn.
  destruct (handle w (GetExecOutput "yarn bin") s) as [[o|[m|]] s1]; run_cbn;
    intros H; try discriminate H.
  revert H.
  destruct (handle w (GetExecOutput _) s1) as [[o'|[m|]] s2]; run_cbn;
    intros H; try discriminate H.
  revert H. unfold string_or_undefined at 1 2 3.
  destruct (String.eqb (getInput "custom-command") "") eqn:E.
  - apply String.eqb_eq in E. run_cbn.
    destruct (handle w (GitFetch _ _) s2) as [r s3]. run_cbn.
    intros H. injection H as H1 H2 H3 H4. split.
    + intros N. now destruct N.
    + intros _. subst rest. do 2 eexists. reflexivity.
  - apply String.eqb_neq in E. cbn [commandOf].
    destruct (includes (stdout o') "Check time") eqn:I; cbn [negb]; run_cbn.
    + destruct (handle w (GitFetch _ _) s2) as [r s3]. run_cbn.
      intros H. injection H as H1 H2 H3 H4. subst o' rest. split.
      * intros _ F. rewrite F in I. discriminate I.
      * intros _. do 2 eexists. reflexivity.
    + intros H. injection H as H1 H2 H3 H4. subst o' rest. split.
      * intros _ _. split; [now symmetry | now rewrite H2].
      * intros [F|F]; [now destruct E | rewrite F in I; discriminate I].
Qed.

Lemma custom_command_is_checked_witness :
  exists r rest',
    List.tl (List.tl (List.tl
      (trace (interp (sampleWorld []) (run sampleInputs sampleContext) O))))
    = EGitFetch (Some "token") "main" r :: rest'.
Proof.
  apply (@custom_command_is_checked sampleInputs sampleContext (sampleWorld []) O
           (mkExecOutput 0 ("/w/node_modules/.bin" ++ nl) "")
           (mkExecOutput 0 example_current "")
           "/w/node_modules/.bin/tsc --diagnostics --incremental false"
           (List.tl (List.tl (List.tl
              (trace (interp (sampleWorld []) (run sampleInputs sampleContext) O)))))).
  - vm_compute. reflexivity.
  - left. reflexivity.
Defined.

Lemma every_call_call (P : forall X : Type, Call X -> Prop) (X : Type) (c : Call X) :
  P X c -> every_call P (call c).
Proof. intros H. split; [exact H | intros [x|t]; exact I]. Qed.

Lemma every_call_bindP (P : forall X : Type, Call X -> Prop) (A B : Type)
      (p : Prog A) (f : A -> Prog B) :
  every_call P p -> (forall a, every_call P (f a)) -> every_call P (bindP p f).
Proof.
  intros Hp Hf. induction p as [a|t|o next IH|X c k IH]; cbn [bindP every_call] in *.
  - apply Hf.
  - exact I.
  - now apply IH.
  - destruct Hp as [Hc Hk]. split; [exact Hc | intros o; now apply IH].
Qed.

Lemma every_call_catchP (P : forall X : Type, Call X -> Prop) (A : Type)
      (p : Prog A) (h : Thrown -> Prog A) :
  every_call P p -> (forall t, every_call P (h t)) -> every_call P (catchP p h).
Proof.
  intros Hp Hh. induction p as [a|t|o next IH|X c k IH]; cbn [catchP every_call] in *.
  - exact I.
  - apply Hh.
  - now apply IH.
  - destruct Hp as [Hc Hk]. split; [exact Hc | intros o; now apply IH].
Qed.

(** What holds of every call of a program holds of every event of its
    executions. *)
Lemma every_call_trace (P : forall X : Type, Call X -> Prop) (Q : Event -> Prop)
      (w : World) (A : Type) (p : Prog A) (s : state w) :
  (forall o, Q (event_of_output o)) ->
  (forall X (c : Call X) o, P X c -> Q (event_of_call c o)) ->
  every_call P p -> Forall Q (trace (interp w p s)).
Proof.
  intros Ho Hc. revert s.
  induction p as [a|t|o next IH|X c k IH]; intros s Hp; cbn [interp every_call] in *.
  - constructor.
  - constructor.
  - cbn [emit trace]. constructor; [apply Ho | now apply IH].
  - destruct Hp as [Pc Hk]. destruct (handle w c s) as [o s'].
    cbn [emit trace]. constructor; [now apply Hc | now apply IH].
Qed.

Lemma isGitHubCall_event_of_call (X : Type) (c : Call X) (o : Outcome X) :
  isGitHubCall (event_of_call c o) = isGitHubRequest c.
Proof. destruct c; reflexivity. Qed.

Lemma isCommentCall_event_of_call (X : Type) (c : Call X) (o : Outcome X) :
  isCommentCall (event_of_call c o) = isCommentRequest c.
Proof. destruct c; reflexivity. Qed.

Ltac every_call_tac :=
  repeat first
    [ exact I
    | match goal with
      | |- every_call _ (call _) => apply every_call_call; reflexivity
      | |- every_call _ (bindP _ _) => apply every_call_bindP; [|intros]
      | |- every_call _ (catchP _ _) => apply every_call_catchP; [|intros]
      | |- every_call _ (Out _ _) => cbn [every_call]
      | |- every_call _ (match ?x with _ => _ end) => destruct x eqn:?
      end ].

(** X6.  The GitHub client and the comment requests are used only when
    the input [leave-comment] is [true] and a [github-token] is given:
    otherwise no execution of [run] contains such a call. *)
Theorem comment_needs_flag_and_token (getInput : string -> string) (ctx : Context)
        (w : World) (s : state w) :
  getInput "leave-comment" <> "true" \/ getInput "github-token" = "" ->
  Forall (fun e => isGitHubCall e = false) (trace (interp w (run getInput ctx) s)).
Proof.
  intros H.
  apply every_call_trace with (P := fun X c => isGitHubRequest c = false).
  - intros [m|m]; reflexivity.
  - intros X c o Hc. now rewrite isGitHubCall_event_of_call.
  - unfold run, runBody, installDependencies, string_or_undefined.
    cbn [every_call]. every_call_tac.
    exfalso. destruct H as [H|H].
    + apply H. now apply String.eqb_eq.
    + match goal with
      | E : (if String.eqb (getInput "github-token") "" then _ else _) = Some _ |- _ =>
          rewrite H in E; discriminate E
      end.
Qed.

Lemma comment_needs_flag_and_token_witness :
  Forall (fun e => isGitHubCall e = false)
         (trace (interp (sampleWorld []) (run (fun _ => "") sampleContext) O)).
Proof.
  apply (comment_needs_flag_and_token (fun _ => "") sampleContext (sampleWorld []) O).
  right. reflexivity.
Defined.

(** X7.  [run] reads the six inputs [base-branch], [treshold],
    [custom-command], [extended], [leave-comment] and [github-token],
    and no other.  No other: two input tables that agree on these six
    give the same program (an input spelled [threshold] is never
    read).  Each of the six: changing that input alone changes what a
    run does in the example world. *)
Theorem run_reads_six_inputs (getInput getInput' : string -> string) (ctx : Context) :
  ((forall n, In n inputNames -> getInput n = getInput' n) ->
   run getInput ctx = run getInput' ctx)
  /\ (forall n, In n inputNames ->
        exists g g' : string -> string,
          (forall m, m <> n -> g m = g' m)
          /\ trace (interp (sampleWorld []) (run g sampleContext) O)
             <> trace (interp (sampleWorld []) (run g' sampleContext) O)).
Proof.
  split.
  - intros H. unfold run, runBody.
    rewrite (H "base-branch"), (H "treshold"), (H "custom-command"), (H "extended"),
      (H "leave-comment"), (H "github-token") by (unfold inputNames; simpl; tauto).
    reflexivity.
  - intros n H.
    assert (A : forall (g : string -> string) (v : string) (m : string),
               m <> n -> g m = (if String.eqb m n then v else g m)).
    { intros g v m Hm. apply String.eqb_neq in Hm. now rewrite Hm. }
    unfold inputNames in H.
    destruct H as [<-|[<-|[<-|[<-|[<-|[<-|[]]]]]]].
    + exists (fun _ => ""), (fun m => if String.eqb m "base-branch" then "dev" else "").
      split; [apply (A (fun _ => ""))|]. vm_compute. discriminate.
    + exists (fun _ => ""), (fun m => if String.eqb m "treshold" then "100" else "").
      split; [apply (A (fun _ => ""))|]. vm_compute. discriminate.
    + exists (fun _ => ""),
             (fun m => if String.eqb m "custom-command" then "npx tsc" else "").
      split; [apply (A (fun _ => ""))|]. vm_compute. discriminate.
    + exists (fun _ => ""), (fun m => if String.eqb m "extended" then "true" else "").
      split; [apply (A (fun _ => ""))|]. vm_compute. discriminate.
    + exists (fun m => if String.eqb m "github-token" then "token" else ""),
             (fun m => if String.eqb m "leave-comment" then "true"
                       else if String.eqb m "github-token" then "token" else "").
      split; [apply (A (fun m => if String.eqb m "github-token" then "token" else ""))|].
      vm_compute. discriminate.
    + exists (fun _ => ""), (fun m => if String.eqb m "github-token" then "token" else "").
      split; [apply (A (fun _ => ""))|]. vm_compute. discriminate.
Qed.

Lemma run_reads_six_inputs_witness :
  run (fun n => if String.eqb n "threshold" then "1000" else "") sampleContext
  = run (fun _ => "") sampleContext.
Proof.
  apply (proj1 (run_reads_six_inputs
                  (fun n => if String.eqb n "threshold" then "1000" else "")
                  (fun _ => "") sampleContext)).
  intros n H. unfold inputNames in H.
  repeat (destruct H as [<-|H]; [reflexivity|]). destruct H.
Defined.

(** X8.  The threshold that [run] hands to [compareDiagnostics] is
    never zero and never not-a-number: it is [parseInt] of the input
    when that is a non-zero number, and 300 otherwise, so an input of 0
    gives 300. *)
Theorem treshold_default (v : string) :
  isNaN (tresholdOf v) = false
  /\ eqb (tresholdOf v) zero = false
  /\ (isNaN (parseInt v) = false -> eqb (parseInt v) zero = false ->
      tresholdOf v = parseInt v)
  /\ (isNaN (parseInt v) = true \/ eqb (parseInt v) zero = true ->
      tresholdOf v = of_Z 300).
Proof.
  unfold tresholdOf, truthy.
  destruct (isNaN (parseInt v)) eqn:N; destruct (eqb (parseInt v) zero) eqn:Z;
    cbn [orb negb]; repeat split; trivial; try discriminate;
    intros [H|H]; discriminate H.
Qed.

Lemma treshold_default_witness :
  tresholdOf "0" = of_Z 300 /\ tresholdOf "250" = parseInt "250".
Proof.
  split.
  - apply (proj2 (proj2 (proj2 (treshold_default "0")))). right. reflexivity.
  - apply (proj1 (proj2 (proj2 (treshold_default "250")))); reflexivity.
Defined.

Lemma findReport_some (comments : list Comment) (c : Comment) :
  findReport comments = Some c ->
  In c comments /\ exists b, body c = Some b /\ includes b marker = true.
Proof.
  unfold findReport. intros H. apply find_some in H as [Hin Hb].
  split; [exact Hin|]. destruct (body c) as [b|]; [|discriminate]. now exists b.
Qed.

Lemma findReport_none (comments : list Comment) (c : Comment) (b : string) :
  findReport comments = None -> In c comments -> body c = Some b ->
  includes b marker = false.
Proof.
  unfold findReport. intros H Hin Hb.
  pose proof (find_none _ _ H c Hin) as N. cbn beta in N. now rewrite Hb in N.
Qed.

(** Every report holds the marker that [leaveComment] searches for. *)
Lemma report_has_marker (prev current : string) (threshold : number) (report : string) :
  compareDiagnostics prev current threshold = Normal report ->
  includes report marker = true.
Proof.
  rewrite compareDiagnostics_eq. intros H. injection H as <-.
  unfold marker. apply includes_spec. exists "## ". eexists. reflexivity.
Qed.

(** What [leaveComment] does once the comments are listed. *)
Lemma leaveComment_after_listing (text token : string) (ctx : Context)
        (w : World) (s : state w) (owner repo : string) (issue : Z)
        (comments : list Comment) :
  In (EListComments owner repo issue (Returned comments))
     (trace (interp w (leaveComment text token ctx) s)) ->
  context_repo ctx = Returned (owner, repo)
  /\ pull_request ctx = Some issue
  /\ exists url r,
       trace (interp w (leaveComment text token ctx) s)
       = [EGetServerUrl (repository_html_url ctx) (Returned url);
          EGetOctokit token (Returned tt);
          EListComments owner repo issue (Returned comments);
          match findReport comments with
          | Some c => EUpdateComment owner repo (id c) issue text r
          | None => ECreateComment owner repo issue text r
          end]
       /\ outcome (interp w (leaveComment text token ctx) s)
          = match r, findReport comments with
            | Returned _, Some c => Returned c
            | Returned c', None => Returned c'
            | Raised t, _ => Raised t
            end.
Proof.
  unfold leaveComment, getCurrentRepoMetadata, getCurrentPRID.
  destruct (context_repo ctx) as [[o p]|t]; run_cbn; [|intros []].
  destruct (handle w (GetServerUrl _) s) as [[url|t] s1]; run_cbn;
    [|intros [H|[]]; discriminate H].
  destruct (handle w (GetOctokit token) s1) as [[[]|t] s2]; run_cbn;
    [|intros [H|[H|[]]]; discriminate H].
  destruct (pull_request ctx) as [n|]; run_cbn;
    [|intros [H|[H|[]]]; discriminate H].
  destruct (handle w (ListComments o p n) s2) as [[cs|t] s3]; run_cbn;
    [|intros [H|[H|[H|[]]]]; discriminate H].
  assert (G : forall r : Outcome Comment,
             In (EListComments owner repo issue (Returned comments))
                [EGetServerUrl (repository_html_url ctx) (Returned url);
                 EGetOctokit token (Returned tt);
                 EListComments o p n (Returned cs); 
                 match findReport cs with
                 | Some c => EUpdateComment o p (id c) n text r
                 | None => ECreateComment o p n text r
                 end] ->
             o = owner /\ p = repo /\ n = issue /\ cs = comments).
  { intros r [H|[H|[H|[H|[]]]]]; try discriminate H.
    - injection H as -> -> -> ->. auto.
    - destruct (findReport cs); discriminate H. }
  destruct (findReport cs) as [c|] eqn:F; run_cbn.
  - destruct (handle w (UpdateComment _ _ _ _ _) s3) as [r s4].
    destruct r as [c'|t]; run_cbn; intros H;
      destruct (G _ H) as (-> & -> & -> & ->); rewrite F;
      repeat split; do 2 eexists; split; reflexivity.
  - destruct (handle w (CreateComment _ _ _ _) s3) as [r s4].
    destruct r as [c'|t]; run_cbn; intros H;
      destruct (G _ H) as (-> & -> & -> & ->); rewrite F;
      repeat split; do 2 eexists; split; reflexivity.
Qed.

(** X9.  [leaveComment] updates or creates, never both.  Once the
    comments are listed, it updates the first comment whose body holds
    [Diagnostics Comparison], with the new text, and returns that
    comment; when no listed body holds the marker it creates one
    comment.  Nothing else is requested, and the listing is for the
    repository and pull request of the context. *)
Theorem leaveComment_upserts (text token : string) (ctx : Context)
        (w : World) (s : state w) (owner repo : string) (issue : Z)
        (comments : list Comment) :
  In (EListComments owner repo issue (Returned comments))
     (trace (interp w (leaveComment text token ctx) s)) ->
  context_repo ctx = Returned (owner, repo)
  /\ pull_request ctx = Some issue
  /\ exists url r,
       trace (interp w (leaveComment text token ctx) s)
       = [EGetServerUrl (repository_html_url ctx) (Returned url);
          EGetOctokit token (Returned tt);
          EListComments owner repo issue (Returned comments);
          match findReport comments with
          | Some c => EUpdateComment owner repo (id c) issue text r
          | None => ECreateComment owner repo issue text r
          end]
       /\ outcome (interp w (leaveComment text token ctx) s)
          = match r, findReport comments with
            | Returned _, Some c => Returned c
            | Returned c', None => Returned c'
            | Raised t, _ => Raised t
            end.
Proof. apply leaveComment_after_listing. Qed.

Lemma leaveComment_upserts_witness :
  exists url r,
    trace (interp (sampleWorld [mkComment 5 None;
                                mkComment 6 (Some "## Diagnostics Comparison: old")])
                  (leaveComment "new" "token" sampleContext) O)
    = [EGetServerUrl None (Returned url);
       EGetOctokit "token" (Returned tt);
       EListComments "beerose" "ts-diff" 7
         (Returned [mkComment 5 None;
                    mkComment 6 (Some "## Diagnostics Comparison: old")]);
       EUpdateComment "beerose" "ts-diff" 6 7 "new" r].
Proof.
  destruct (leaveComment_upserts "new" "token" sampleContext
              (sampleWorld [mkComment 5 None;
                            mkComment 6 (Some "## Diagnostics Comparison: old")])
              O "beerose" "ts-diff" 7
              [mkComment 5 None; mkComment 6 (Some "## Diagnostics Comparison: old")])
    as (_ & _ & url & r & T & _).
  - vm_compute. tauto.
  - exists url, r. exact T.
Defined.

(** X10.  A report that an earlier run has posted is found again: when
    the listing holds a comment whose body is a report of
    [compareDiagnostics], for whatever inputs, [leaveComment] creates no
    comment. *)
Theorem posted_report_is_updated (text token : string) (ctx : Context)
        (w : World) (s : state w) (owner repo : string) (issue : Z)
        (comments : list Comment) (c : Comment)
        (prev current : string) (threshold : number) (report : string) :
  In (EListComments owner repo issue (Returned comments))
     (trace (interp w (leaveComment text token ctx) s)) ->
  In c comments -> body c = Some report ->
  compareDiagnostics prev current threshold = Normal report ->
  Forall (fun e => isCreateComment e = false)
         (trace (interp w (leaveComment text token ctx) s)).
Proof.
  intros L Hin Hb Hr.
  destruct (leaveComment_after_listing _ _ _ _ _ _ _ _ _ L) as (_ & _ & url & r & -> & _).
  destruct (findReport comments) as [c'|] eqn:F.
  - repeat constructor.
  - pose proof (@findReport_none comments c report F Hin Hb) as N.
    rewrite (@report_has_marker prev current threshold report Hr) in N.
    discriminate N.
Qed.

Lemma posted_report_is_updated_witness :
  Forall (fun e => isCreateComment e = false)
         (trace (interp (sampleWorld [mkComment 6 (Some (header ++ footer))])
                        (leaveComment "new" "token" sampleContext) O)).
Proof.
  apply (@posted_report_is_updated "new" "token" sampleContext
           (sampleWorld [mkComment 6 (Some (header ++ footer))]) O
           "beerose" "ts-diff" 7 [mkComment 6 (Some (header ++ footer))]
           (mkComment 6 (Some (header ++ footer))) "" "" zero (header ++ footer)).
  - vm_compute. tauto.
  - left. reflexivity.
  - reflexivity.
  - vm_compute. reflexivity.
Defined.

(** X11.  Outside a pull request [leaveComment] lists, updates and
    creates nothing and never returns a comment: with the repository
    known and the client ready, it throws
    [This action can only be run in PR context]. *)
Theorem leaveComment_needs_pull_request (text token : string) (ctx : Context)
        (w : World) (s : state w) :
  pull_request ctx = None ->
  Forall (fun e => isCommentCall e = false)
         (trace (interp w (leaveComment text token ctx) s))
  /\ (forall c, outcome (interp w (leaveComment text token ctx) s) <> Returned c)
  /\ (forall url,
        trace (interp w (leaveComment text token ctx) s)
        = [EGetServerUrl (repository_html_url ctx) (Returned url);
           EGetOctokit token (Returned tt)] ->
        outcome (interp w (leaveComment text token ctx) s)
        = Raised (ErrorObject "This action can only be run in PR context")).
Proof.
  intros H. unfold leaveComment, getCurrentRepoMetadata, getCurrentPRID.
  rewrite H.
  destruct (context_repo ctx) as [[o p]|t]; run_cbn;
    [|repeat split; [constructor | discriminate | discriminate]].
  destruct (handle w (GetServerUrl _) s) as [[url|t] s1]; run_cbn;
    [|repeat split; [repeat constructor | discriminate | discriminate]].
  destruct (handle w (GetOctokit token) s1) as [[[]|t] s2]; run_cbn;
    [|repeat split; [repeat constructor | discriminate | discriminate]].
  repeat split; [repeat constructor | discriminate].
Qed.

Lemma leaveComment_needs_pull_request_witness :
  outcome (interp (sampleWorld [])
                  (leaveComment "new" "token"
                     (mkContext (Returned ("beerose", "ts-diff")) None None)) O)
  = Raised (ErrorObject "This action can only be run in PR context").
Proof.
  apply (proj2 (proj2 (@leaveComment_needs_pull_request "new" "token"
           (mkContext (Returned ("beerose", "ts-diff")) None None)
           (sampleWorld []) O eq_refl)) "https://github.com").
  reflexivity.
Defined.









(* ================================================================== *)
(** * Further properties of the engine *)

(** [<=] on numbers is the order of the keys. *)
Lemma leb_order_key (x y : number) :
  leb x y = true
  <-> isNaN x = false /\ isNaN y = false /\ key_le (order_key x) (order_key y).
Proof.
  unfold leb, SFleb.
  destruct x as [sx|sx| |sx mx ex], y as [sy|sy| |sy my ey];
    try destruct sx; try destruct sy; cbn;
    try (split; [intros H; try discriminate H; repeat split; lia
                | intros (A & B & C); try discriminate; trivial; lia]).
  all: destruct (Z.compare_spec ex ey) as [E|E|E];
    try (split; [intros H; try discriminate H; repeat split; lia
                | intros (A & B & C); trivial; lia]).
  all: subst;
    match goal with
    | |- context [Pos.compare_cont Eq ?a ?b] =>
        change (Pos.compare_cont Eq a b) with (Pos.compare a b);
        destruct (Pos.compare_spec a b) as [F|F|F]
    end; cbn;
    (split; [intros H; try discriminate H; repeat split; lia
            | intros (A & B & C); trivial; lia]).
Qed.

Lemma leb_trans (x y z : number) :
  leb x y = true -> leb y z = true -> leb x z = true.
Proof.
  rewrite !leb_order_key. intros (A & B & C) (_ & D & E).
  repeat split; trivial.
  destruct (order_key x) as [[a1 a2] a3], (order_key y) as [[b1 b2] b3],
    (order_key z) as [[c1 c2] c3].
  unfold key_le in *. lia.
Qed.

(** X13.  Raising the threshold never turns an unchanged row into a
    changed one: for thresholds [t <= t'] the status at [t'] is the
    status at [t] or unchanged. *)
Theorem threshold_monotone (prevD curD : Diagnostics) (key : string)
        (t t' : number) :
  leb t t' = true ->
  rowStatus prevD curD t' key = rowStatus prevD curD t key
  \/ rowStatus prevD curD t' key = Unchanged.
Proof.
  intros L. unfold rowStatus, statusOf.
  destruct (eqb (rowDiff prevD curD key) zero); [now left|].
  destruct (shouldApplyThreshold key); cbn [andb]; [|now left].
  unfold isWithinThreshold.
  destruct (leb (mul (abs (rowDiff prevD curD key)) (of_Z 1000)) t) eqn:W.
  - rewrite (leb_trans _ _ _ W L). now left.
  - destruct (leb (mul (abs (rowDiff prevD curD key)) (of_Z 1000)) t');
      [now right | now left].
Qed.

Lemma threshold_monotone_witness :
  rowStatus (parseDiagnostics "Check time: 1.0s") (parseDiagnostics "Check time: 1.5s")
            (of_Z 1000) "Check time"
  = rowStatus (parseDiagnostics "Check time: 1.0s") (parseDiagnostics "Check time: 1.5s")
              (of_Z 300) "Check time"
  \/ rowStatus (parseDiagnostics "Check time: 1.0s") (parseDiagnostics "Check time: 1.5s")
               (of_Z 1000) "Check time"
     = Unchanged.
Proof.
  apply (threshold_monotone (parseDiagnostics "Check time: 1.0s")
                            (parseDiagnostics "Check time: 1.5s") "Check time"
                            (of_Z 300) (of_Z 1000)).
  reflexivity.
Defined.

Lemma binary_round_aux_sign (s : bool) (m e : Z) (l : location) :
  has_sign s (binary_round_aux prec emax s m e l).
Proof.
  unfold binary_round_aux.
  destruct (shr_fexp prec emax m e l) as [mrs' e'].
  destruct (shr_fexp prec emax _ e' loc_Exact) as [mrs'' e''].
  destruct (shr_m mrs''); try (cbn; trivial; fail).
  destruct (e'' <=? emax - prec)%Z; cbn; reflexivity.
Qed.

Lemma div_sign (sx sy : bool) (x y : number) :
  has_sign sx x -> has_sign sy y -> has_sign (xorb sx sy) (div x y).
Proof.
  destruct x as [a|a| |a mx ex], y as [b|b| |b my ey]; cbn;
    intros; subst; trivial.
  unfold div, SFdiv.
  destruct (SFdiv_core_binary prec emax (Z.pos mx) ex (Z.pos my) ey) as [[mz ez] lz].
  apply binary_round_aux_sign.
Qed.

Lemma mul_sign (sx sy : bool) (x y : number) :
  has_sign sx x -> has_sign sy y -> has_sign (xorb sx sy) (mul x y).
Proof.
  destruct x as [a|a| |a mx ex], y as [b|b| |b my ey]; cbn;
    intros; subst; trivial.
  apply binary_round_aux_sign.
Qed.

Lemma has_sign_of_positive (x : number) : ltb zero x = true -> has_sign false x.
Proof. destruct x as [s|s| |s m e]; try destruct s; cbn; congruence. Qed.

Lemma has_sign_of_negative (x : number) : ltb x zero = true -> has_sign true x.
Proof. destruct x as [s|s| |s m e]; try destruct s; cbn; congruence. Qed.

Lemma not_negative (x : number) : has_sign false x -> ltb x zero = false.
Proof. destruct x as [s|s| |s m e]; try destruct s; cbn; congruence. Qed.

Lemma not_positive (x : number) : has_sign true x -> ltb zero x = false.
Proof. destruct x as [s|s| |s m e]; try destruct s; cbn; congruence. Qed.

(** The sign of the percentage is the sign of the difference times the
    sign of the current value, unless the percentage is the zero that
    replaces a not-a-number or a division by zero. *)
Lemma diffPercentageOf_sign (sd sc : bool) (cv d : number) :
  has_sign sd d -> has_sign sc cv ->
  has_sign (xorb sd sc) (diffPercentageOf (Some cv) d)
  \/ diffPercentageOf (Some cv) d = zero.
Proof.
  intros Hd Hc. unfold diffPercentageOf.
  destruct (not_zero (Some cv)); [|now right].
  cbn [to_number].
  destruct (isNaN (mul (div d cv) (of_Z 100))) eqn:N; [now right|].
  left. replace (xorb sd sc) with (xorb (xorb sd sc) false) by apply xorb_false_r.
  apply mul_sign; [now apply div_sign | reflexivity].
Qed.

Lemma statusOf_increased (key : string) (d t : number) :
  statusOf key d t = Increased -> ltb zero d = true.
Proof.
  unfold statusOf. destruct (eqb d zero); [discriminate|].
  destruct (shouldApplyThreshold key && isWithinThreshold d t); [discriminate|].
  destruct (ltb zero d); [trivial | discriminate].
Qed.

Lemma statusOf_decreased (key : string) (d t : number) :
  statusOf key d t = Decreased -> ltb d zero = true \/ isNaN d = true.
Proof.
  unfold statusOf. intros H. by_sign d; rewrite ?E, ?P in H; auto; try discriminate.
  destruct (shouldApplyThreshold key && isWithinThreshold d t); discriminate.
Qed.

(** X14.  The sign shown follows the current value: for a positive
    current value an increased row never shows a negative percentage
    and a decreased row never shows a [+]; for a negative current value
    it is the other way round (the percentage is the difference divided
    by the current value, not by its magnitude). *)
Theorem percentage_sign_follows_current (prevD curD : Diagnostics)
        (threshold : number) (key : string) (m : Metric) :
  get curD key = VMetric m ->
  (ltb zero (value m) = true ->
   (rowStatus prevD curD threshold key = Increased ->
    ltb (rowPercentage prevD curD key) zero = false)
   /\ (rowStatus prevD curD threshold key = Decreased ->
       ltb zero (rowPercentage prevD curD key) = false))
  /\ (ltb (value m) zero = true ->
      (rowStatus prevD curD threshold key = Increased ->
       ltb zero (rowPercentage prevD curD key) = false)
      /\ (rowStatus prevD curD threshold key = Decreased ->
          ltb (rowPercentage prevD curD key) zero = false)).
Proof.
  intros G. unfold rowStatus, rowPercentage. rewrite G. cbn [value_of].
  set (d := rowDiff prevD curD key).
  assert (Z0 : forall p, p = zero -> ltb p zero = false /\ ltb zero p = false).
  { intros p ->. split; reflexivity. }
  assert (NaNcase : isNaN d = true ->
            ltb (diffPercentageOf (Some (value m)) d) zero = false
            /\ ltb zero (diffPercentageOf (Some (value m)) d) = false).
  { intros N. apply Z0. now apply diffPercentageOf_nan. }
  split; intros C; split; intros S.
  - apply statusOf_increased, has_sign_of_positive in S.
    apply has_sign_of_positive in C.
    destruct (@diffPercentageOf_sign _ _ _ _ S C) as [H|H];
      [now apply not_negative | exact (proj1 (Z0 _ H))].
  - apply statusOf_decreased in S as [S|S]; [|exact (proj2 (NaNcase S))].
    apply has_sign_of_negative in S. apply has_sign_of_positive in C.
    destruct (@diffPercentageOf_sign _ _ _ _ S C) as [H|H];
      [now apply not_positive | exact (proj2 (Z0 _ H))].
  - apply statusOf_increased, has_sign_of_positive in S.
    apply has_sign_of_negative in C.
    destruct (@diffPercentageOf_sign _ _ _ _ S C) as [H|H];
      [now apply not_positive | exact (proj2 (Z0 _ H))].
  - apply statusOf_decreased in S as [S|S]; [|exact (proj1 (NaNcase S))].
    apply has_sign_of_negative in S. apply has_sign_of_negative in C.
    destruct (@diffPercentageOf_sign _ _ _ _ S C) as [H|H];
      [now apply not_negative | exact (proj1 (Z0 _ H))].
Qed.

Lemma percentage_sign_follows_current_witness :
  rowText (parseDiagnostics "Delta: -5") (parseDiagnostics "Delta: -3")
          (of_Z 300) "Delta"
  = rowOf "Delta" "-5" "-3" "▲" "-66.67"
  /\ ltb zero (rowPercentage (parseDiagnostics "Delta: -5")
                             (parseDiagnostics "Delta: -3") "Delta") = false.
Proof.
  split; [vm_compute; reflexivity|].
  apply (proj1 (proj2 (@percentage_sign_follows_current
           (parseDiagnostics "Delta: -5") (parseDiagnostics "Delta: -3")
           (of_Z 300) "Delta" (mkMetric (parseInt "-3") UNone) eq_refl) eq_refl)).
  reflexivity.
Defined.

Lemma fold_parseLine_ignored (lines : list string) (d : Diagnostics) :
  (forall line, In line lines -> count ":" line <> 1%nat) ->
  fold_left parseLine lines d = d.
Proof.
  revert d. induction lines as [|l ls IH]; intros d H; [reflexivity|].
  cbn [fold_left]. rewrite parseLine_key_value. unfold key_value.
  pose proof (H l (or_introl eq_refl)) as Hl.
  destruct (count ":" l) as [|[|n]]; try congruence;
    apply IH; intros line Hin; apply H; now right.
Qed.

(** X15.  When no line of the current text has exactly one colon (an
    empty text, headers, time stamps), the report has no row: it is the
    header followed by the footer, whatever the previous text holds. *)
Theorem no_metric_no_row (prev current : string) (threshold : number) :
  (forall line, In line (lines_of current) -> count ":" line <> 1%nat) ->
  compareDiagnostics prev current threshold = Normal (header ++ footer).
Proof.
  intros H. rewrite compareDiagnostics_eq.
  unfold parseDiagnostics at 2 3. fold (lines_of current).
  rewrite (@fold_parseLine_ignored _ _ H). reflexivity.
Qed.

Lemma no_metric_no_row_witness :
  compareDiagnostics example_previous
                     ("Build finished" ++ nl ++ "at 12:30:05" ++ nl)
                     (of_Z 300)
  = Normal (header ++ footer).
Proof.
  apply no_metric_no_row. intros line H. vm_compute in H.
  destruct H as [<-|[<-|[<-|[]]]]; vm_compute; discriminate.
Defined.

(** X16.  Unless a line has the key [__proto__], the rows of the report
    are those of the metrics of the current text: a key is visited
    exactly when some line of the current text with exactly one colon
    has it as trimmed key.  What only the previous text holds gets no
    row. *)
Theorem rows_are_current_metrics (current : string) :
  last_value "__proto__" (lines_of current) = None ->
  forall key,
    In key (for_in (parseDiagnostics current))
    <-> exists line v, In line (lines_of current) /\ key_value line = Some (key, v).
Proof.
  intros N key. rewrite for_in_spec.
  assert (P : proto (parseDiagnostics current) = None).
  { unfold parseDiagnostics. fold (lines_of current). now rewrite proto_fold, N. }
  rewrite P. rewrite (own_key_entry _ (wf_parseDiagnostics current)).
  rewrite entry_parseDiagnostics, <- last_value_some.
  split.
  - intros [[_ [m H]]|[H _]]; [|congruence].
    destruct (last_value key (lines_of current)) as [v|]; [now exists v | discriminate].
  - intros [v H]. left. split.
    + intros ->. congruence.
    + exists (parseValue v). now rewrite H.
Qed.

Lemma rows_are_current_metrics_witness :
  In "Files" (for_in (parseDiagnostics example_current))
  <-> exists line v, In line (lines_of example_current)
                     /\ key_value line = Some ("Files", v).
Proof.
  apply (rows_are_current_metrics example_current). reflexivity.
Defined.

Lemma keys_assoc_set_order (l : list (string * Metric)) (k : string) (m : Metric) :
  map fst (assoc_set l k m)
  = if mem k (map fst l) then map fst l else (map fst l ++ [k])%list.
Proof.
  induction l as [|[k0 m0] l IH]; [reflexivity|].
  cbn [assoc_set map fst]. unfold mem in *. cbn [existsb].
  rewrite (String.eqb_sym k k0).
  destruct (String.eqb k0 k); cbn [orb map fst]; [reflexivity|].
  rewrite IH. destruct (existsb (String.eqb k) (map fst l)); reflexivity.
Qed.

Lemma first_keys_fold (lines : list string) (d : Diagnostics) :
  map fst (own (fold_left parseLine lines d)) = first_keys lines (map fst (own d)).
Proof.
  revert d. induction lines as [|l ls IH]; intros d; [reflexivity|].
  cbn [fold_left first_keys]. rewrite IH, parseLine_key_value.
  destruct (key_value l) as [[k v]|]; [|reflexivity].
  unfold set. destruct (String.eqb k "__proto__"); cbn [orb own]; [reflexivity|].
  rewrite keys_assoc_set_order.
  destruct (mem k (map fst (own d))); reflexivity.
Qed.

Lemma own_keys_first_keys (input : string) :
  map fst (own (parseDiagnostics input)) = first_keys (lines_of input) [].
Proof. unfold parseDiagnostics. now rewrite first_keys_fold. Qed.

(** X17.  In a report the rows follow the first lines of their keys,
    and show the values of their last: when no line of the current text
    has the key [__proto__] and no key is an array index, the report is
    the header, one row for each trimmed key of the lines with exactly
    one colon, in the order in which the keys first occur, and the
    footer; the metric read for such a key is the one parsed from the
    last line that has it. *)
Theorem keys_in_first_occurrence_order (prev current : string) (threshold : number) :
  last_value "__proto__" (lines_of current) = None ->
  (forall key, In key (first_keys (lines_of current) []) -> array_index key = None) ->
  compareDiagnostics prev current threshold
  = Normal (header
            ++ rowTexts (parseDiagnostics prev) (parseDiagnostics current) threshold
                        (first_keys (lines_of current) [])
            ++ footer)
  /\ forall key, In key (first_keys (lines_of current) []) ->
       exists v, last_value key (lines_of current) = Some v
                 /\ get (parseDiagnostics current) key = VMetric (parseValue v).
Proof.
  intros N I.
  assert (P : proto (parseDiagnostics current) = None).
  { unfold parseDiagnostics. fold (lines_of current). now rewrite proto_fold, N. }
  rewrite <- own_keys_first_keys in *. split.
  - rewrite compareDiagnostics_eq. unfold for_in.
    rewrite (own_keys_no_index _ I), P. cbn [map snd app]. now rewrite app_nil_r.
  - intros key H.
    apply (own_key_entry _ (wf_parseDiagnostics current)) in H.
    destruct H as [_ [m H]]. pose proof H as G. apply entry_get in G.
    rewrite entry_parseDiagnostics in H.
    destruct (last_value key (lines_of current)) as [v|]; [|discriminate].
    exists v. split; [reflexivity|]. injection H as <-. exact G.
Qed.

Lemma keys_in_first_occurrence_order_witness :
  compareDiagnostics "" ("b: 1" ++ nl ++ "a: 2" ++ nl ++ "b: 3") (of_Z 300)
  = Normal (header
            ++ rowTexts (parseDiagnostics "")
                        (parseDiagnostics ("b: 1" ++ nl ++ "a: 2" ++ nl ++ "b: 3"))
                        (of_Z 300) ["b"; "a"]
            ++ footer).
Proof.
  refine (proj1 (@keys_in_first_occurrence_order
                   "" ("b: 1" ++ nl ++ "a: 2" ++ nl ++ "b: 3") (of_Z 300)
                   eq_refl _)).
  intros key [<-|[<-|[]]]; reflexivity.
Defined.

(** ** The order of the rows *)

Lemma insert_index_In (i : Z) (k : string) (l : list (Z * string)) (p : Z * string) :
  In p (insert_index i k l) <-> p = (i, k) \/ In p l.
Proof.
  induction l as [|[j k0] l IH]; cbn [insert_index].
  - cbn [In]. split; [intros [H|[]]; now left | intros [H|[]]; now left].
  - destruct (i <=? j)%Z; cbn [In].
    + split; [intros [H|H]; [now left | now right] | intros [H|H]; [now left | now right]].
    + rewrite IH. cbn [In]. tauto.
Qed.

Lemma insert_index_ascending (i : Z) (k : string) (l : list (Z * string)) :
  ascending l -> ascending (insert_index i k l).
Proof.
  induction l as [|[j k0] l IH]; cbn [insert_index ascending In].
  - intros _. split; [intros j k' []| exact I].
  - intros [Hj Hl]. destruct (i <=? j)%Z eqn:E; cbn [ascending].
    + apply Z.leb_le in E. split; [|split; assumption].
      intros j' k' [H|H]; [injection H as <- _; exact E|].
      specialize (Hj _ _ H). lia.
    + apply Z.leb_gt in E. split; [|now apply IH].
      intros j' k' H. apply insert_index_In in H.
      destruct H as [H|H]; [injection H as -> _; lia | now apply (Hj _ k')].
Qed.

Lemma own_keys_order (l : list string) :
  ascending (fst (own_keys l))
  /\ (forall i k, In (i, k) (fst (own_keys l)) <-> In k l /\ array_index k = Some i)
  /\ snd (own_keys l) = filter not_index l.
Proof.
  induction l as [|k l (A & B & C)]; cbn [own_keys].
  - split; [exact I|]. split; [|reflexivity]. intros i k. cbn. tauto.
  - destruct (own_keys l) as [idx str]. cbn [fst snd] in *.
    cbn [filter]. unfold not_index at 1.
    destruct (array_index k) as [i|] eqn:E; cbn [fst snd].
    + split; [now apply insert_index_ascending|]. split; [|exact C].
      intros j k'. rewrite insert_index_In, B. cbn [In]. split.
      * intros [H|[H1 H2]]; [injection H as -> ->; auto | auto].
      * intros [[->|H1] H2]; [left; congruence | right; auto].
    + split; [exact A|]. split; [|now rewrite C].
      intros j k'. rewrite B. cbn [In]. split.
      * intros [H1 H2]; auto.
      * intros [[->|H1] H2]; [congruence | auto].
Qed.

(** X18.  The rows do not always follow the lines of the text.  The
    keys that are array indices ([0], [7], [42], ...) come first, in
    ascending numerical order; the other keys follow in the order of
    their first line; the keys [value] and [unit] that a [__proto__]
    line makes visible come last. *)
Theorem index_keys_come_first (current : string) :
  exists idx inherited,
    for_in (parseDiagnostics current)
    = (map snd idx
       ++ filter not_index (first_keys (lines_of current) [])
       ++ inherited)%list
    /\ ascending idx
    /\ (forall i k, In (i, k) idx
                    <-> In k (first_keys (lines_of current) [])
                        /\ array_index k = Some i)
    /\ (forall k, In k inherited ->
                  (k = "value" \/ k = "unit")
                  /\ ~ In k (first_keys (lines_of current) [])).
Proof.
  unfold for_in. rewrite own_keys_first_keys.
  set (keys := first_keys (lines_of current) []).
  destruct (own_keys_order keys) as (A & B & C).
  destruct (own_keys keys) as [idx str]. cbn [fst snd] in *.
  exists idx. eexists. split; [rewrite C; reflexivity|].
  split; [exact A|]. split; [exact B|].
  intros k H. destruct (proto (parseDiagnostics current)); [|destruct H].
  apply filter_In in H. destruct H as [H1 H2]. split.
  - cbn [In] in H1. destruct H1 as [<-|[<-|[]]]; auto.
  - intros Hin. apply mem_In in Hin. rewrite Hin in H2. discriminate.
Qed.

(** ** A line with the key [__proto__] *)

(** X19.  A line with the key [__proto__] gives no row of that name,
    but the report gets rows for [value] and [unit]; unless a line of
    the current text has that key itself, such a row shows
    [undefinedundefined] as the new value, the sign of decrease and
    0.00 percent. *)
Theorem proto_line_rows (prev current : string) (threshold : number) (v : string) :
  last_value "__proto__" (lines_of current) = Some v ->
  ~ In "__proto__" (for_in (parseDiagnostics current))
  /\ forall key, key = "value" \/ key = "unit" ->
       In key (for_in (parseDiagnostics current))
       /\ (last_value key (lines_of current) = None ->
           rowText (parseDiagnostics prev) (parseDiagnostics current) threshold key
           = rowOf key (cell (get (parseDiagnostics prev) key))
                   "undefinedundefined" "▼" "0.00").
Proof.
  intros L.
  assert (P : proto (parseDiagnostics current) = Some (parseValue v)).
  { unfold parseDiagnostics. fold (lines_of current). now rewrite proto_fold, L. }
  pose proof (wf_parseDiagnostics current) as W.
  split.
  - rewrite for_in_spec. intros [H|(_ & [H|H] & _)]; try discriminate.
    apply (own_key_entry _ W) in H. now destruct H.
  - intros key K. split.
    + rewrite for_in_spec.
      destruct (in_dec string_dec key (map fst (own (parseDiagnostics current))))
        as [H|H]; [now left | right].
      split; [congruence | auto].
    + intros N.
      assert (A : assoc (own (parseDiagnostics current)) key = None).
      { destruct (assoc (own (parseDiagnostics current)) key) as [m|] eqn:E;
          [|reflexivity].
        assert (H : In key (map fst (own (parseDiagnostics current))))
          by (apply assoc_keys; now exists m).
        apply (own_key_entry _ W) in H. destruct H as [_ [m' H]].
        rewrite entry_parseDiagnostics, N in H. discriminate. }
      assert (G : value_of (get (parseDiagnostics current) key) = None
                  /\ unit_of (get (parseDiagnostics current) key) = None).
      { unfold get. rewrite A, P. destruct K as [-> | ->]; split; reflexivity. }
      destruct G as [G1 G2].
      rewrite rowText_rowOf. unfold cell at 2. rewrite G1, G2.
      unfold rowStatus, rowPercentage, rowDiff. rewrite G1.
      rewrite statusOf_nan by reflexivity.
      rewrite diffPercentageOf_nan by reflexivity.
      reflexivity.
Qed.

Lemma proto_line_rows_witness :
  ~ In "__proto__"
       (for_in (parseDiagnostics ("__proto__: 5" ++ nl ++ "Files: 10")))
  /\ In "value" (for_in (parseDiagnostics ("__proto__: 5" ++ nl ++ "Files: 10")))
  /\ rowText (parseDiagnostics example_previous)
             (parseDiagnostics ("__proto__: 5" ++ nl ++ "Files: 10"))
             (of_Z 300) "value"
     = rowOf "value" "undefinedundefined" "undefinedundefined" "▼" "0.00".
Proof.
  destruct (@proto_line_rows example_previous ("__proto__: 5" ++ nl ++ "Files: 10")
                             (of_Z 300) "5" eq_refl) as [H1 H2].
  destruct (H2 "value" (or_introl eq_refl)) as [H3 H4].
  split; [exact H1|]. split; [exact H3|].
  rewrite H4 by reflexivity. reflexivity.
Defined.

(** ** [ensureSubmissionsAreUptodate] *)

(** X20.  [ensureSubmissionsAreUptodate] gives the two dates of the
    stub database whatever [cik] and the current date are: its query is
    not empty, so the second [return], the only place that reads the
    clock, is never reached.  Both dates have the shape of a
    [FullDateString]. *)
Theorem submissions_never_use_the_clock (cik : number) (today : string) :
  ensureSubmissionsAreUptodate cik today
  = mkSubmissions (Some "2019-01-01") "2019-01-01"
  /\ option_map is_FullDateString
                (last_processed (ensureSubmissionsAreUptodate cik today)) = Some true
  /\ is_FullDateString (last_known_update (ensureSubmissionsAreUptodate cik today))
     = true.
Proof. repeat split. Qed.
